(** * temp_dir: running a block of code inside a fresh temporary directory

    A shallow embedding of [temp_dir.py] ([in_temp_dir], [within_temp_dir])
    over a small executable model of the host the module talks to: a
    directory tree with permissions, the process working directory, the name
    generator of [tempfile] and the host's power to reject a call.

    Python computations are functions from the exception being handled and
    the host state to an outcome, a new host state and the host calls made. *)

From stdpp Require Import base strings list gmap.

Set Warnings "-register-all".

(** ** Host: the directory tree *)

(** An absolute path, as the list of its components below the root. *)
Definition path := list string.

Record mode := Mode { can_search : bool; can_write : bool }.

(** [tempfile.mkdtemp] creates its directory with mode 0o700. *)
Definition mode_700 : mode := Mode true true.

Inductive node :=
| File (data : string)
| Dir (m : mode) (entries : list (string * node)).

Inductive errno :=
| ENOENT | ENOTDIR | EACCES | EEXIST | ENOTEMPTY | EBUSY | EIO.

(** A directory is an association list; the first entry of a name is the one
    the host sees. *)
Fixpoint find_entry (name : string) (es : list (string * node)) : option node :=
  match es with
  | [] => None
  | (k, n) :: es' => if decide (k = name) then Some n else find_entry name es'
  end.

Fixpoint set_entry (name : string) (n : node) (es : list (string * node))
  : list (string * node) :=
  match es with
  | [] => [(name, n)]
  | (k, c) :: es' =>
      if decide (k = name) then (k, n) :: es' else (k, c) :: set_entry name n es'
  end.

Fixpoint drop_entry (name : string) (es : list (string * node))
  : list (string * node) :=
  match es with
  | [] => []
  | (k, c) :: es' =>
      if decide (k = name) then drop_entry name es' else (k, c) :: drop_entry name es'
  end.

(** What is at a path, permissions aside. *)
Fixpoint lookup_path (p : path) (r : node) : option node :=
  match p with
  | [] => Some r
  | k :: p' =>
      match r with
      | File _ => None
      | Dir _ es =>
          match find_entry k es with
          | Some c => lookup_path p' c
          | None => None
          end
      end
  end.

Definition exists_at (p : path) (r : node) : bool :=
  match lookup_path p r with Some _ => true | None => false end.

Definition is_dir_at (p : path) (r : node) : bool :=
  match lookup_path p r with Some (Dir _ _) => true | _ => false end.

Definition is_empty_dir_at (p : path) (r : node) : bool :=
  match lookup_path p r with Some (Dir _ []) => true | _ => false end.

(** Path resolution as the host does it: every directory walked through must
    be searchable. *)
Fixpoint resolve (p : path) (r : node) : errno + node :=
  match p with
  | [] => inr r
  | k :: p' =>
      match r with
      | File _ => inl ENOTDIR
      | Dir m es =>
          if can_search m then
            match find_entry k es with
            | Some c => resolve p' c
            | None => inl ENOENT
            end
          else inl EACCES
      end
  end.

(** Replace the node at an existing path. *)
Fixpoint graft (p : path) (n' : node) (r : node) : node :=
  match p with
  | [] => n'
  | k :: p' =>
      match r with
      | File d => File d
      | Dir m es =>
          match find_entry k es with
          | Some c => Dir m (set_entry k (graft p' n' c) es)
          | None => Dir m es
          end
      end
  end.

(** Create a new entry [n0] at [p]: the parent must exist, be searchable and
    writable, and have no entry of that name. *)
Fixpoint create (n0 : node) (p : path) (r : node) : errno + node :=
  match r with
  | File _ => inl ENOTDIR
  | Dir m es =>
      match p with
      | [] => inl EEXIST
      | k :: p' =>
          if can_search m then
            match find_entry k es, p' with
            | Some _, [] => inl EEXIST
            | Some c, _ =>
                match create n0 p' c with
                | inl e => inl e
                | inr c' => inr (Dir m (set_entry k c' es))
                end
            | None, [] =>
                if can_write m then inr (Dir m (set_entry k n0 es)) else inl EACCES
            | None, _ => inl ENOENT
            end
          else inl EACCES
      end
  end.

(** [os.mkdir(p, 0o700)] *)
Definition mkdir (p : path) (r : node) : errno + node :=
  create (Dir mode_700 []) p r.

(** [os.chmod(p, m)] on a directory. *)
Definition chmod (p : path) (m : mode) (r : node) : errno + node :=
  match resolve p r with
  | inl e => inl e
  | inr (File d) => inr r
  | inr (Dir _ es) => inr (graft p (Dir m es) r)
  end.

(** [os.rmdir(p)]: the directory must be empty and its parent writable. *)
Fixpoint rmdir (p : path) (r : node) : errno + node :=
  match p, r with
  | [], _ => inl EBUSY
  | _, File _ => inl ENOTDIR
  | k :: p', Dir m es =>
      if can_search m then
        match find_entry k es with
        | None => inl ENOENT
        | Some c =>
            match p' with
            | [] =>
                match c with
                | File _ => inl ENOTDIR
                | Dir _ (_ :: _) => inl ENOTEMPTY
                | Dir _ [] =>
                    if can_write m then inr (Dir m (drop_entry k es)) else inl EACCES
                end
            | _ =>
                match rmdir p' c with
                | inl e => inl e
                | inr c' => inr (Dir m (set_entry k c' es))
                end
            end
        end
      else inl EACCES
  end.

(** Delete the entries of a directory in directory order, each with all that
    is below it ([purge_below]), stopping at the first that cannot be deleted
    (the default [onerror] of [shutil.rmtree] re-raises).  Returns whether
    all went and what is left. *)
Fixpoint purge_entries (purge_below : node -> bool * node) (writable : bool)
    (es : list (string * node)) : bool * list (string * node) :=
  match es with
  | [] => (true, [])
  | (k, c) :: rest =>
      let '(ok, c') := purge_below c in
      if ok && writable then purge_entries purge_below writable rest
      else (false, (k, c') :: rest)
  end.

(** Delete everything below a node. *)
Fixpoint purge (n : node) : bool * node :=
  match n with
  | File d => (true, File d)
  | Dir m es =>
      if can_search m then
        let '(ok, es') := purge_entries purge (can_write m) es in (ok, Dir m es')
      else (false, Dir m es)
  end.

(** The tree part of [shutil.rmtree(p)]: the error, if any, and the tree
    left behind. *)
Definition rmtree_tree (p : path) (r : node) : option errno * node :=
  match resolve p r with
  | inl e => (Some e, r)
  | inr (File _) => (Some ENOTDIR, r)
  | inr (Dir m es) =>
      let '(ok, d') := purge (Dir m es) in
      let r1 := graft p d' r in
      if ok then
        match rmdir p r1 with
        | inl e => (Some e, r1)
        | inr r2 => (None, r2)
        end
      else (Some EACCES, r1)
  end.

(** ** Host: the process and the oracles *)

Record world := World {
  root : node;                   (* the directory tree *)
  cwd : path;                    (* the process working directory *)
  tempdir : path;                (* [tempfile.gettempdir()] *)
  names : list string;           (* names the random name generator yields next *)
  faults : list (option errno)   (* the host's say on the next calls: [Some e]
                                    rejects the call with [e] (I/O error, a
                                    directory taken away by another actor),
                                    [None] lets the tree decide *)
}.

Definition with_root (r : node) (w : world) : world :=
  World r (cwd w) (tempdir w) (names w) (faults w).
Definition with_cwd (p : path) (w : world) : world :=
  World (root w) p (tempdir w) (names w) (faults w).
Definition with_names (ns : list string) (w : world) : world :=
  World (root w) (cwd w) (tempdir w) ns (faults w).
Definition with_faults (fs : list (option errno)) (w : world) : world :=
  World (root w) (cwd w) (tempdir w) (names w) fs.

(** ** Python: exceptions, outcomes, computations *)

(** An exception: its class and the exception that was being handled when it
    was raised ([__context__]). *)
Inductive exn := Exn (cls : string) (context : option exn).

Definition exn_class (e : exn) : string := let 'Exn c _ := e in c.
Definition exn_context (e : exn) : option exn := let 'Exn _ c := e in c.

Definition os_error_class (e : errno) : string :=
  match e with
  | ENOENT => "FileNotFoundError"
  | ENOTDIR => "NotADirectoryError"
  | EACCES => "PermissionError"
  | EEXIST => "FileExistsError"
  | ENOTEMPTY | EBUSY | EIO => "OSError"
  end.

Inductive result (A : Type) :=
| Return (a : A)
| Raise (e : exn).
Arguments Return {A} a.
Arguments Raise {A} e.

(** Calls to the host: the four [temp_dir.py] makes, and two for the blocks
    of the examples. *)
Inductive call :=
| Getcwd
| Mkdtemp
| Chdir (p : path)
| Rmtree (p : path)
| Chmod (p : path)
| Open (p : path).

(** A call that was made, and the error it failed with, if it did. *)
Record event := Ev { ev_call : call; ev_error : option errno }.

Record outcome (A : Type) := Out {
  res : result A;
  post : world;
  log : list event
}.
Arguments Out {A} res post log.
Arguments res {A} o.
Arguments post {A} o.
Arguments log {A} o.

Definition returned {A} (r : result A) : bool :=
  match r with
  | Return _ => true
  | Raise _ => false
  end.

(** A computation runs with the exception being handled, if any, and the host
    state. *)
Definition M (A : Type) : Type := option exn -> world -> outcome A.

Definition ret {A} (a : A) : M A := fun _ w => Out (Return a) w [].

Definition raise {A} (cls : string) : M A :=
  fun h w => Out (Raise (Exn cls h)) w [].

Definition bind {A B} (m : M A) (f : A -> M B) : M B :=
  fun h w =>
    let o := m h w in
    match res o with
    | Return a => let o' := f a h (post o) in Out (res o') (post o') (log o ++ log o')
    | Raise e => Out (Raise e) (post o) (log o)
    end.

Notation "x <- m ;; k" := (bind m (fun x => k))
  (at level 100, m at next level, k at level 200, right associativity).
Notation "m ;;; k" := (bind m (fun _ => k))
  (at level 100, k at level 200, right associativity).

(** The exception being handled in a [finally] clause: the one its [try]
    body raised, or else the one that was being handled already. *)
Definition handling {A} (h : option exn) (r : result A) : option exn :=
  match r with
  | Raise e => Some e
  | Return _ => h
  end.

(** What a [try ... finally] ends in: an exception of the [finally] clause
    replaces the outcome of the body; otherwise the outcome of the body
    stands. *)
Definition settle {A} (body : result A) (fin : result unit) : result A :=
  match fin with
  | Raise e' => Raise e'
  | Return _ => body
  end.

(** [try: body finally: fin].  [fin] always runs, in the state [body] left. *)
Definition try_finally {A} (body : M A) (fin : M unit) : M A :=
  fun h w =>
    let o := body h w in
    let o' := fin (handling h (res o)) (post o) in
    Out (settle (res o) (res o')) (post o') (log o ++ log o').

(** ** Host calls *)

(** Each call first hears the host's say. *)
Definition host_call {A} (c : call) (body : world -> (errno + A) * world) : M A :=
  fun h w =>
    let w0 := with_faults (tail (faults w)) w in
    match head (faults w) with
    | Some (Some e) => Out (Raise (Exn (os_error_class e) h)) w0 [Ev c (Some e)]
    | _ =>
        match body w0 with
        | (inl e, w1) => Out (Raise (Exn (os_error_class e) h)) w1 [Ev c (Some e)]
        | (inr a, w1) => Out (Return a) w1 [Ev c None]
        end
    end.

(** [os.getcwd()] *)
Definition os_getcwd : M path :=
  host_call Getcwd (fun w =>
    if is_dir_at (cwd w) (root w) then (inr (cwd w), w) else (inl ENOENT, w)).

(** [os.chdir(p)] *)
Definition os_chdir (p : path) : M unit :=
  host_call (Chdir p) (fun w =>
    match resolve p (root w) with
    | inl e => (inl e, w)
    | inr (File _) => (inl ENOTDIR, w)
    | inr (Dir m _) => if can_search m then (inr tt, with_cwd p w) else (inl EACCES, w)
    end).

(** [shutil.rmtree(p)] *)
Definition shutil_rmtree (p : path) : M unit :=
  host_call (Rmtree p) (fun w =>
    match rmtree_tree p (root w) with
    | (Some e, r') => (inl e, with_root r' w)
    | (None, r') => (inr tt, with_root r' w)
    end).

(** [tempfile.TMP_MAX] *)
Definition TMP_MAX : nat := Z.to_nat 10000.

(** The loop of [tempfile.mkdtemp]: draw a name, try to create
    [dir/tmp<name>], draw again when it exists already, give up after
    [TMP_MAX] draws. *)
Fixpoint mkdtemp_loop (tries : nat) (dir : path) (cands : list string) (r : node)
  : (errno + path) * node * list string :=
  match tries, cands with
  | S tries', name :: cands' =>
      let file := dir ++ ["tmp" +:+ name] in
      match mkdir file r with
      | inr r' => (inr file, r', cands')
      | inl EEXIST => mkdtemp_loop tries' dir cands' r
      | inl e => (inl e, r, cands')
      end
  | _, _ => (inl EEXIST, r, cands)
  end.

(** [tempfile.mkdtemp()] *)
Definition tempfile_mkdtemp : M path :=
  host_call Mkdtemp (fun w =>
    let '(r, t, ns) := mkdtemp_loop TMP_MAX (tempdir w) (names w) (root w) in
    (r, with_names ns (with_root t w))).

(** [os.chmod(p, m)] *)
Definition os_chmod (p : path) (m : mode) : M unit :=
  host_call (Chmod p) (fun w =>
    match chmod p m (root w) with
    | inl e => (inl e, w)
    | inr r' => (inr tt, with_root r' w)
    end).

(** [open(p, "x").write(data)]: a new file. *)
Definition write_file (p : path) (data : string) : M unit :=
  host_call (Open p) (fun w =>
    match create (File data) p (root w) with
    | inl e => (inl e, w)
    | inr r' => (inr tt, with_root r' w)
    end).

(** [os.path.exists(p)], for a caller allowed to search every directory. *)
Definition os_path_exists (p : path) : M bool :=
  fun _ w => Out (Return (exists_at p (root w))) w [].

(** ** temp_dir.py *)

(** [in_temp_dir], a generator-based context manager: [block] is the body of
    the [with] statement, run where the generator yields. *)
Definition in_temp_dir {A} (block : path -> M A) : M A :=
  original_directory <- os_getcwd ;;
  temporary_directory <- tempfile_mkdtemp ;;
  os_chdir temporary_directory ;;;
  try_finally
    (block temporary_directory)
    (try_finally
       (os_chdir original_directory)
       (shutil_rmtree temporary_directory)).

(** A Python callable: the call itself and the metadata [functools.wraps]
    copies.  [fn_module], [fn_name] and [fn_qualname] are [None] for an
    object without the attribute (a [functools.partial], an instance with
    [__call__]); [fn_doc] is [None] for a [__doc__] that is [None].  Values
    are of type [V], results of type [R]. *)
Record callable (V R : Type) := Callable {
  fn_module : option string;
  fn_name : option string;
  fn_qualname : option string;
  fn_doc : option string;
  fn_call : list V -> gmap string V -> M R
}.
Arguments Callable {V R}.
Arguments fn_module {V R} c.
Arguments fn_name {V R} c.
Arguments fn_qualname {V R} c.
Arguments fn_doc {V R} c.
Arguments fn_call {V R} c.

(** One [WRAPPER_ASSIGNMENTS] step of [functools.update_wrapper]: the
    attribute is copied when the wrapped object has it. *)
Definition assigned {A} (from_wrapped to_wrapper : option A) : option A :=
  match from_wrapped with
  | Some v => Some v
  | None => to_wrapper
  end.

(** [functools.wraps(wrapped)(wrapper)] *)
Definition functools_wraps {V R} (wrapped wrapper : callable V R) : callable V R :=
  {| fn_module := assigned (fn_module wrapped) (fn_module wrapper);
     fn_name := assigned (fn_name wrapped) (fn_name wrapper);
     fn_qualname := assigned (fn_qualname wrapped) (fn_qualname wrapper);
     fn_doc := fn_doc wrapped;
     fn_call := fn_call wrapper |}.

(** [within_temp_dir] *)
Definition within_temp_dir {V R} (func : callable V R) : callable V R :=
  let decorated :=
    {| fn_module := Some "temp_dir";
       fn_name := Some "decorated";
       fn_qualname := Some "within_temp_dir.<locals>.decorated";
       fn_doc := None;
       fn_call := fun args kwargs =>
         in_temp_dir (fun _ => fn_call func args kwargs) |} in
  functools_wraps func decorated.

(** *** The parts of [in_temp_dir] *)

(** Lines 46-48, what runs before the block: the directory to go back to and
    the directory yielded. *)
Definition entry : M (path * path) :=
  original_directory <- os_getcwd ;;
  temporary_directory <- tempfile_mkdtemp ;;
  os_chdir temporary_directory ;;;
  ret (original_directory, temporary_directory).

(** Lines 52-55, the exit path. *)
Definition exit_path (original_directory temporary_directory : path) : M unit :=
  try_finally
    (os_chdir original_directory)
    (shutil_rmtree temporary_directory).

(** The two steps of the exit path as they run after a block that ended in
    [ob]: the restore step in the state the block left, the delete step in
    the state the restore step left. *)
Definition restore_step {A} (h : option exn) (original_directory : path)
    (ob : outcome A) : outcome unit :=
  os_chdir original_directory (handling h (res ob)) (post ob).

Definition delete_step {A} (h : option exn)
    (original_directory temporary_directory : path) (ob : outcome A)
  : outcome unit :=
  let o1 := restore_step h original_directory ob in
  shutil_rmtree temporary_directory
    (handling (handling h (res ob)) (res o1)) (post o1).

(** [e0] is in the [__context__] chain of [e]. *)
Fixpoint chained (e0 e : exn) : Prop :=
  match e with
  | Exn _ None => False
  | Exn _ (Some c) => c = e0 \/ chained e0 c
  end.

(** *** Callers *)

(** Scopes one after the other, [with in_temp_dir() as d: block(d)] for each
    block in turn; for each scope the caller notes the directory it was given
    and whether that path still exists once the scope is left. *)
Fixpoint in_sequence (blocks : list (path -> M unit)) : M (list (path * bool)) :=
  match blocks with
  | [] => ret []
  | block :: blocks' =>
      d <- in_temp_dir (fun d => block d ;;; ret d) ;;
      still_there <- os_path_exists d ;;
      rest <- in_sequence blocks' ;;
      ret ((d, still_there) :: rest)
  end.

(** ** A host to run things on *)

Definition mode_755 : mode := Mode true true.
Definition mode_555 : mode := Mode true false.

Definition home : path := ["home"; "user"].

Definition root0 : node :=
  Dir mode_755
    [("home", Dir mode_755 [("user", Dir mode_755 [("notes.txt", File "hello")])]);
     ("tmp", Dir mode_755 [])].

Definition world0 : world :=
  {| root := root0; cwd := home; tempdir := ["tmp"];
     names := ["a1b2c3d4"; "e5f6g7h8"; "i9j0k1l2"]; faults := [] |}.

(** The directories [tempfile.mkdtemp] gives on [world0]. *)
Definition tmp0 : path := ["tmp"; "tmpa1b2c3d4"].

(** [def f(x, y=2): return x + y], with Python's binding of positional and
    keyword arguments to [x] and [y]. *)
Definition bind_x_y (args : list Z) (kwargs : gmap string Z) : option (Z * Z) :=
  if decide (delete "x" (delete "y" kwargs) = ∅) then
    match args, kwargs !! "x", kwargs !! "y" with
    | [], Some x, oy => Some (x, default 2%Z oy)
    | [x], None, oy => Some (x, default 2%Z oy)
    | [x; y], None, None => Some (x, y)
    | _, _, _ => None
    end
  else None.

Definition add_xy : callable Z Z :=
  {| fn_module := Some "__main__";
     fn_name := Some "f";
     fn_qualname := Some "f";
     fn_doc := Some "Add x and y.";
     fn_call := fun args kwargs =>
       match bind_x_y args kwargs with
       | Some (x, y) => ret (x + y)%Z
       | None => raise "TypeError"
       end |}.

(** [def f(x, y=2): shutil.rmtree(os.getcwd()); return x + y]: a function
    that removes the directory it runs in. *)
Definition tidy_add_xy : callable Z Z :=
  {| fn_module := Some "__main__";
     fn_name := Some "f";
     fn_qualname := Some "f";
     fn_doc := None;
     fn_call := fun args kwargs =>
       match bind_x_y args kwargs with
       | Some (x, y) =>
           d <- os_getcwd ;;
           shutil_rmtree d ;;;
           ret (x + y)%Z
       | None => raise "TypeError"
       end |}.

(** [open("data.txt", "x").write("42")] in the yielded directory. *)
Definition block_data (d : path) : M unit :=
  write_file (d ++ ["data.txt"]) "42".

(** A block that reports what it finds when it starts: the directory it was
    given, the working directory, and whether the directory it was given is
    an empty directory. *)
Definition block_probe (d : path) : M (path * path * bool) :=
  fun _ w => Out (Return (d, cwd w, is_empty_dir_at d (root w))) w [].

(** [raise ValueError] *)
Definition block_value_error (d : path) : M unit :=
  raise "ValueError".

(** A block that leaves a file in a directory it made read-only, then fails:
    [open("data.txt", "x").write("42"); os.chmod(d, 0o555); raise ValueError]. *)
Definition block_locked (d : path) : M unit :=
  write_file (d ++ ["data.txt"]) "42" ;;;
  os_chmod d mode_555 ;;;
  raise "ValueError".

(** The same block without the failure. *)
Definition block_locked_quiet (d : path) : M unit :=
  write_file (d ++ ["data.txt"]) "42" ;;;
  os_chmod d mode_555.

(** A block that walks away and removes the directory it was started from:
    [os.chdir("/"); shutil.rmtree("/home/user")]. *)
Definition block_burn_home (d : path) : M unit :=
  os_chdir [] ;;;
  shutil_rmtree home.

(** A block that only walks away: [os.chdir("/")]. *)
Definition block_wander (d : path) : M unit :=
  os_chdir [].

(** A host whose name generator yields the same name twice. *)
Definition world_repeat : world :=
  {| root := root0; cwd := home; tempdir := ["tmp"];
     names := ["a1b2c3d4"; "a1b2c3d4"]; faults := [] |}.

(** A host that rejects the third call (the [os.chdir] into the new
    directory) with an I/O error. *)
Definition world_chdir_fault : world :=
  {| root := root0; cwd := home; tempdir := ["tmp"];
     names := ["a1b2c3d4"]; faults := [None; None; Some EIO] |}.

(** ** What a caller can see of the tree *)

(** What is at a path as [os.stat] and a read would tell: a file and its
    data, or a directory and its mode. *)
Inductive kind :=
| IsFile (data : string)
| IsDir (m : mode).

Definition stat (q : path) (r : node) : option kind :=
  match lookup_path q r with
  | Some (File d) => Some (IsFile d)
  | Some (Dir m _) => Some (IsDir m)
  | None => None
  end.



(** A block that stays where it is and removes the directory the scope was
    entered from: [shutil.rmtree("/home/user")]. *)
Definition block_burn_home_stay (d : path) : M unit :=
  shutil_rmtree home.

(** A host whose process sits in a directory that is no longer there. *)
Definition world_lost : world :=
  {| root := root0; cwd := ["gone"]; tempdir := ["tmp"];
     names := ["a1b2c3d4"]; faults := [] |}.

(** A host without its temporary-file directory. *)
Definition world_no_tempdir : world :=
  {| root := root0; cwd := home; tempdir := ["scratch"];
     names := ["a1b2c3d4"]; faults := [] |}.

(** A host where the first name the generator yields is taken already, by a
    directory that holds a file. *)
Definition world_taken : world :=
  {| root :=
       Dir mode_755
         [("home", Dir mode_755 [("user", Dir mode_755 [])]);
          ("tmp", Dir mode_755
                    [("tmpa1b2c3d4", Dir mode_700 [("keep.txt", File "mine")])])];
     cwd := home; tempdir := ["tmp"];
     names := ["a1b2c3d4"; "e5f6g7h8"]; faults := [] |}.

(** A host that rejects the restore and the deletion of the first scope. *)
Definition world_exit_faults : world :=
  {| root := root0; cwd := home; tempdir := ["tmp"];
     names := ["a1b2c3d4"];
     faults := [None; None; None; Some EIO; Some EBUSY] |}.

(** ** Proof steps *)

(** The cases of a host call: rejected by the host, or decided by the tree. *)
Ltac host_cases w :=
  unfold host_call;
  destruct (head (faults w)) as [[?|]|]; cbn;
  try done.

(** * Facts about the host *)

(** ** The tree *)

Lemma find_entry_set_entry k n es : find_entry k (set_entry k n es) = Some n.
Proof.
  induction es as [|[k' c] es IH]; cbn.
  - by rewrite decide_True.
  - destruct (decide (k' = k)) as [->|Hne]; cbn.
    + by rewrite decide_True.
    + by rewrite decide_False.
Qed.

Lemma find_entry_drop_entry k es : find_entry k (drop_entry k es) = None.
Proof.
  induction es as [|[k' c] es IH]; cbn; [done|].
  destruct (decide (k' = k)) as [->|Hne]; cbn; [done|].
  by rewrite decide_False.
Qed.

Lemma lookup_path_app p q r :
  lookup_path (p ++ q) r =
  match lookup_path p r with Some n => lookup_path q n | None => None end.
Proof.
  revert r. induction p as [|k p IH]; intros r; cbn; [done|].
  destruct r as [d|m es]; [done|].
  destruct (find_entry k es); [apply IH|done].
Qed.

Lemma lookup_path_below p q r :
  lookup_path p r = None -> lookup_path (p ++ q) r = None.
Proof. intros H. by rewrite lookup_path_app, H. Qed.

Lemma resolve_lookup p r n : resolve p r = inr n -> lookup_path p r = Some n.
Proof.
  revert r. induction p as [|k p IH]; intros r; cbn.
  - by intros [= ->].
  - destruct r as [d|m es]; [done|].
    destruct (can_search m); [|done].
    destruct (find_entry k es); [apply IH|done].
Qed.

Lemma create_spec n0 p r r' :
  create n0 p r = inr r' ->
  lookup_path p r = None /\ lookup_path p r' = Some n0.
Proof.
  revert r r'. induction p as [|k p IH]; intros r r'.
  - destruct r; cbn; discriminate.
  - destruct r as [d|m es]; cbn; [discriminate|].
    destruct (can_search m); [|discriminate].
    destruct (find_entry k es) as [c|] eqn:Hk.
    + destruct p as [|k' p]; [discriminate|].
      destruct (create n0 (k' :: p) c) as [e|c'] eqn:Hc; [discriminate|].
      intros [= <-]. destruct (IH _ _ Hc) as [Hold Hnew].
      split; [exact Hold|].
      cbn [lookup_path]. by rewrite find_entry_set_entry.
    + destruct p as [|k' p]; [|discriminate].
      destruct (can_write m); [|discriminate].
      intros [= <-]. split; [done|].
      cbn. by rewrite find_entry_set_entry.
Qed.

Lemma rmdir_gone p r r' : rmdir p r = inr r' -> lookup_path p r' = None.
Proof.
  revert r r'. induction p as [|k p IH]; intros r r'; [discriminate|].
  destruct r as [d|m es]; cbn; [discriminate|].
  destruct (can_search m); [|discriminate].
  destruct (find_entry k es) as [c|] eqn:Hk; [|discriminate].
  destruct p as [|k' p].
  - destruct c as [d|mc [|e es']]; try discriminate.
    destruct (can_write m); [|discriminate].
    intros [= <-]. cbn. by rewrite find_entry_drop_entry.
  - destruct (rmdir (k' :: p) c) as [e|c'] eqn:Hc; [discriminate|].
    intros [= <-]. cbn [lookup_path].
    rewrite find_entry_set_entry. by eapply IH.
Qed.

Lemma purge_entries_ok f writable es es' :
  purge_entries f writable es = (true, es') -> es' = [].
Proof.
  revert es'. induction es as [|[k c] es IH]; intros es'; cbn.
  - by intros [= <-].
  - destruct (f c) as [ok c'].
    destruct (ok && writable); [apply IH|discriminate].
Qed.

Lemma purge_dir m es n : purge (Dir m es) = (true, n) -> n = Dir m [].
Proof.
  cbn. destruct (can_search m); [|discriminate].
  destruct (purge_entries purge (can_write m) es) as [ok es'] eqn:Hes.
  intros [= -> <-]. by rewrite (purge_entries_ok _ _ _ _ Hes).
Qed.

Lemma rmtree_tree_gone p r r' :
  rmtree_tree p r = (None, r') -> lookup_path p r' = None.
Proof.
  unfold rmtree_tree.
  destruct (resolve p r) as [e|[d|m es]]; try discriminate.
  destruct (purge (Dir m es)) as [ok d'].
  destruct ok; [|discriminate].
  destruct (rmdir p (graft p d' r)) as [e|r2] eqn:Hrm; [discriminate|].
  intros [= <-]. by eapply rmdir_gone.
Qed.

(** ** The calls *)

Lemma host_call_log {A} c body h w :
  exists e, log (@host_call A c body h w) = [Ev c e] /\
            (e = None <-> returned (res (host_call c body h w)) = true).
Proof.
  unfold host_call.
  destruct (head (faults w)) as [[e|]|];
    [exists (Some e); cbn; split; [done|split; done]| |];
    destruct (body _) as [[e|a] w1]; cbn;
    (exists (Some e) + exists None); split; try done; split; done.
Qed.

Lemma host_call_context {A} c body h w e :
  res (@host_call A c body h w) = Raise e -> exn_context e = h.
Proof.
  unfold host_call.
  destruct (head (faults w)) as [[e'|]|];
    [by intros [= <-]| |];
    destruct (body _) as [[e'|a] w1]; cbn; intros [= <-]; done.
Qed.

Lemma os_getcwd_ok h w p :
  res (os_getcwd h w) = Return p ->
  p = cwd w /\ root (post (os_getcwd h w)) = root w /\
  cwd (post (os_getcwd h w)) = cwd w.
Proof.
  unfold os_getcwd. host_cases w;
    destruct (is_dir_at (cwd w) (root w)); cbn; try done; by intros [= <-].
Qed.

Lemma os_chdir_root p h w : root (post (os_chdir p h w)) = root w.
Proof.
  unfold os_chdir. host_cases w;
    destruct (resolve p (root w)) as [e|[d|m es]]; cbn; try done;
    destruct (can_search m); done.
Qed.

Lemma os_chdir_ok p h w :
  res (os_chdir p h w) = Return tt -> cwd (post (os_chdir p h w)) = p.
Proof.
  unfold os_chdir. host_cases w;
    destruct (resolve p (root w)) as [e|[d|m es]]; cbn; try done;
    destruct (can_search m); done.
Qed.

Lemma os_chdir_fail p h w e :
  res (os_chdir p h w) = Raise e -> cwd (post (os_chdir p h w)) = cwd w.
Proof.
  unfold os_chdir. host_cases w;
    destruct (resolve p (root w)) as [e'|[d|m es]]; cbn; try done;
    destruct (can_search m); done.
Qed.

Lemma shutil_rmtree_cwd p h w : cwd (post (shutil_rmtree p h w)) = cwd w.
Proof.
  unfold shutil_rmtree. host_cases w;
    destruct (rmtree_tree p (root w)) as [[e|] r']; done.
Qed.

Lemma shutil_rmtree_ok p h w :
  res (shutil_rmtree p h w) = Return tt ->
  lookup_path p (root (post (shutil_rmtree p h w))) = None.
Proof.
  unfold shutil_rmtree. host_cases w;
    destruct (rmtree_tree p (root w)) as [[e|] r'] eqn:Hrm; cbn; try done;
    intros _; by eapply rmtree_tree_gone.
Qed.

Lemma mkdtemp_loop_ok tries dir cands r t r' ns :
  mkdtemp_loop tries dir cands r = (inr t, r', ns) ->
  lookup_path t r = None /\ lookup_path t r' = Some (Dir mode_700 []).
Proof.
  revert cands. induction tries as [|tries IH]; intros cands; [done|].
  destruct cands as [|name cands]; [done|]. cbn.
  destruct (mkdir (dir ++ ["tmp" +:+ name]) r) as [e|r1] eqn:Hmk.
  - destruct e; try done. apply IH.
  - intros [= <- <- <-]. by eapply create_spec.
Qed.

Lemma tempfile_mkdtemp_cwd h w : cwd (post (tempfile_mkdtemp h w)) = cwd w.
Proof.
  unfold tempfile_mkdtemp. host_cases w;
    destruct (mkdtemp_loop _ _ _ _) as [[[e|t] r'] ns]; done.
Qed.

Lemma tempfile_mkdtemp_ok h w t :
  res (tempfile_mkdtemp h w) = Return t ->
  lookup_path t (root w) = None /\
  lookup_path t (root (post (tempfile_mkdtemp h w))) = Some (Dir mode_700 []).
Proof.
  unfold tempfile_mkdtemp. host_cases w;
    destruct (mkdtemp_loop _ _ _ _) as [[[e|t'] r'] ns] eqn:Hloop; cbn; try done;
    intros [= <-]; by eapply mkdtemp_loop_ok.
Qed.

Lemma host_call_return_log {A} c body h w (a : A) :
  res (host_call c body h w) = Return a ->
  log (host_call c body h w) = [Ev c None].
Proof.
  intros Hr. destruct (host_call_log c body h w) as (e & -> & He).
  rewrite Hr in He. destruct He as [_ ->]; done.
Qed.

Lemma step_log {A} c body h w :
  exists e, log (@host_call A c body h w) = [Ev c e] /\
            (e = None <-> exists a, res (host_call c body h w) = Return a).
Proof.
  destruct (host_call_log c body h w) as (e & Hl & He).
  exists e. split; [done|]. rewrite He.
  destruct (res (host_call c body h w)) as [a|x]; cbn; split;
    try done; eauto. by intros [? ?].
Qed.

(** ** The scope *)

Lemma settle_return {A} (r : result A) (r' : result unit) a :
  settle r r' = Return a -> r = Return a /\ r' = Return tt.
Proof. destruct r' as [[]|e]; cbn; [done|discriminate]. Qed.

Lemma entry_stages h w orig tmp :
  res (entry h w) = Return (orig, tmp) ->
  let oa := os_getcwd h w in
  let ob := tempfile_mkdtemp h (post oa) in
  let oc := os_chdir tmp h (post ob) in
  res oa = Return orig /\ res ob = Return tmp /\ res oc = Return tt /\
  post (entry h w) = post oc /\
  log (entry h w) = [Ev Getcwd None; Ev Mkdtemp None; Ev (Chdir tmp) None].
Proof.
  unfold entry, bind. cbv zeta.
  destruct (res (os_getcwd h w)) as [orig'|e] eqn:Ha; cbn; [|discriminate].
  destruct (res (tempfile_mkdtemp h (post (os_getcwd h w)))) as [tmp'|e] eqn:Hb;
    cbn; [|discriminate].
  destruct (res (os_chdir tmp' h (post (tempfile_mkdtemp h (post (os_getcwd h w))))))
    as [[]|e] eqn:Hc; cbn; [|discriminate].
  intros [= -> ->]. repeat split; try done.
  unfold os_getcwd, tempfile_mkdtemp, os_chdir in *.
  rewrite (host_call_return_log _ _ _ _ _ Ha), (host_call_return_log _ _ _ _ _ Hb),
    (host_call_return_log _ _ _ _ _ Hc). done.
Qed.

Lemma entry_facts h w orig tmp :
  res (entry h w) = Return (orig, tmp) ->
  orig = cwd w /\
  cwd (post (entry h w)) = tmp /\
  lookup_path tmp (root w) = None /\
  lookup_path tmp (root (post (entry h w))) = Some (Dir mode_700 []).
Proof.
  intros He. destruct (entry_stages _ _ _ _ He) as (Ha & Hb & Hc & -> & _).
  destruct (os_getcwd_ok _ _ _ Ha) as (-> & Hra & _).
  destruct (tempfile_mkdtemp_ok _ _ _ Hb) as [Hold Hnew].
  rewrite os_chdir_root, (os_chdir_ok _ _ _ Hc), <- Hra. done.
Qed.

Lemma in_temp_dir_entered {A} (block : path -> M A) h w orig tmp :
  res (entry h w) = Return (orig, tmp) ->
  let ob := block tmp h (post (entry h w)) in
  let o1 := restore_step h orig ob in
  let o2 := delete_step h orig tmp ob in
  in_temp_dir block h w =
  Out (settle (res ob) (settle (res o1) (res o2))) (post o2)
      (log (entry h w) ++ log ob ++ log o1 ++ log o2).
Proof.
  unfold in_temp_dir, entry, bind. cbv zeta.
  destruct (res (os_getcwd h w)) as [orig'|e] eqn:Ha; cbn; [|discriminate].
  destruct (res (tempfile_mkdtemp h (post (os_getcwd h w)))) as [tmp'|e] eqn:Hb;
    cbn; [|discriminate].
  destruct (res (os_chdir tmp' h (post (tempfile_mkdtemp h (post (os_getcwd h w))))))
    as [[]|e] eqn:Hc; cbn; [|discriminate].
  intros [= -> ->]. f_equal.
  rewrite app_nil_r, <- !app_assoc. done.
Qed.

Lemma in_temp_dir_not_entered {A} (block : path -> M A) h w e :
  res (entry h w) = Raise e ->
  in_temp_dir block h w = Out (Raise e) (post (entry h w)) (log (entry h w)).
Proof.
  unfold in_temp_dir, entry, bind. cbv zeta.
  destruct (res (os_getcwd h w)) as [orig'|e1] eqn:Ha; cbn;
    [|by intros [= ->]].
  destruct (res (tempfile_mkdtemp h (post (os_getcwd h w)))) as [tmp'|e2] eqn:Hb;
    cbn; [|by intros [= ->]].
  destruct (res (os_chdir tmp' h (post (tempfile_mkdtemp h (post (os_getcwd h w))))))
    as [[]|e3] eqn:Hc; cbn; [discriminate|].
  by intros [= ->].
Qed.

(** [in_temp_dir] is its entry, then the block with the exit path as its
    [finally]. *)
Lemma in_temp_dir_parts {A} (block : path -> M A) h w :
  in_temp_dir block h w =
  (dirs <- entry ;; try_finally (block dirs.2) (exit_path dirs.1 dirs.2)) h w.
Proof.
  unfold in_temp_dir, entry, exit_path, bind. cbv zeta.
  destruct (res (os_getcwd h w)) as [orig|e1]; cbn [res post log]; [|done].
  destruct (res (tempfile_mkdtemp h (post (os_getcwd h w)))) as [tmp|e2];
    cbn [res post log]; [|done].
  destruct (res (os_chdir tmp h (post (tempfile_mkdtemp h (post (os_getcwd h w))))))
    as [[]|e3]; cbn [res post log ret]; [|done].
  f_equal. by rewrite app_nil_r, <- !app_assoc.
Qed.

Lemma exit_log {A} h orig tmp (ob : outcome A) :
  exists e1 e2,
    log (restore_step h orig ob) ++ log (delete_step h orig tmp ob) =
      [Ev (Chdir orig) e1; Ev (Rmtree tmp) e2] /\
    (e1 = None <-> res (restore_step h orig ob) = Return tt) /\
    (e2 = None <-> res (delete_step h orig tmp ob) = Return tt).
Proof.
  unfold delete_step, restore_step, os_chdir, shutil_rmtree. cbv zeta.
  match goal with |- context [log (host_call (Chdir orig) ?b ?h1 ?w1)] =>
    destruct (step_log (Chdir orig) b h1 w1) as (e1 & Hl1 & He1) end.
  match goal with |- context [log (host_call (Rmtree tmp) ?b ?h1 ?w1)] =>
    destruct (step_log (Rmtree tmp) b h1 w1) as (e2 & Hl2 & He2) end.
  exists e1, e2. rewrite Hl1, Hl2. split; [done|].
  rewrite He1, He2. split; split; try (intros [[] ?]; done); eauto.
Qed.

Lemma in_temp_dir_returns {A} (block : path -> M A) h w a :
  res (in_temp_dir block h w) = Return a ->
  exists orig tmp,
    res (entry h w) = Return (orig, tmp) /\
    let ob := block tmp h (post (entry h w)) in
    res ob = Return a /\
    res (restore_step h orig ob) = Return tt /\
    res (delete_step h orig tmp ob) = Return tt.
Proof.
  destruct (res (entry h w)) as [[orig tmp]|e] eqn:He.
  - rewrite (in_temp_dir_entered block h w orig tmp He). cbn.
    intros Hs. exists orig, tmp. split; [done|].
    destruct (settle_return _ _ _ Hs) as [Hb Hs'].
    destruct (settle_return _ _ _ Hs') as [H1 H2]. done.
  - rewrite (in_temp_dir_not_entered block h w e He). discriminate.
Qed.

Lemma in_temp_dir_cwd {A} (block : path -> M A) h w orig tmp :
  res (entry h w) = Return (orig, tmp) ->
  res (restore_step h orig (block tmp h (post (entry h w)))) = Return tt ->
  cwd (post (in_temp_dir block h w)) = cwd w.
Proof.
  intros He H1.
  destruct (entry_facts _ _ _ _ He) as (Horig & _).
  rewrite (in_temp_dir_entered block h w orig tmp He). cbn.
  unfold delete_step. cbv zeta. rewrite shutil_rmtree_cwd.
  unfold restore_step in *. rewrite (os_chdir_ok _ _ _ H1). done.
Qed.

Lemma in_temp_dir_gone {A} (block : path -> M A) h w orig tmp :
  res (entry h w) = Return (orig, tmp) ->
  res (delete_step h orig tmp (block tmp h (post (entry h w)))) = Return tt ->
  lookup_path tmp (root (post (in_temp_dir block h w))) = None.
Proof.
  intros He H2.
  rewrite (in_temp_dir_entered block h w orig tmp He). cbn.
  unfold delete_step in *. cbv zeta in *. by apply shutil_rmtree_ok.
Qed.

Lemma in_temp_dir_log {A} (block : path -> M A) h w orig tmp :
  res (entry h w) = Return (orig, tmp) ->
  let ob := block tmp h (post (entry h w)) in
  exists e1 e2,
    log (in_temp_dir block h w) =
      log (entry h w) ++ log ob ++ [Ev (Chdir orig) e1; Ev (Rmtree tmp) e2] /\
    (e1 = None <-> res (restore_step h orig ob) = Return tt) /\
    (e2 = None <-> res (delete_step h orig tmp ob) = Return tt).
Proof.
  intros He ob.
  destruct (exit_log h orig tmp ob) as (e1 & e2 & Hl & H1 & H2).
  exists e1, e2. rewrite (in_temp_dir_entered block h w orig tmp He). cbn.
  fold ob. by rewrite Hl.
Qed.

Lemma restore_step_context {A} h orig (ob : outcome A) e e1 :
  res ob = Raise e -> res (restore_step h orig ob) = Raise e1 ->
  exn_context e1 = Some e.
Proof.
  unfold restore_step, os_chdir. intros Hb H1.
  rewrite (host_call_context _ _ _ _ _ H1), Hb. done.
Qed.

Lemma delete_step_chained {A} h orig tmp (ob : outcome A) e e2 :
  res ob = Raise e -> res (delete_step h orig tmp ob) = Raise e2 ->
  chained e e2.
Proof.
  intros Hb H2. pose proof H2 as Hc.
  unfold delete_step, shutil_rmtree in Hc. cbv zeta in Hc.
  apply host_call_context in Hc. rewrite Hb in Hc. cbn in Hc.
  destruct e2 as [cls2 c2]. cbn in Hc. subst c2.
  destruct (res (restore_step h orig ob)) as [[]|e1] eqn:H1; cbn.
  - by left.
  - right. pose proof (restore_step_context h orig ob e e1 Hb H1) as Hc1.
    destruct e1 as [cls1 c1]. cbn in Hc1. subst c1. cbn. by left.
Qed.



(** ** The name generator across a scope *)












(** * The claims *)

(** C1. On the exit path of [in_temp_dir] the restore of the working
    directory is attempted first and the deletion of the temporary directory
    second, in the state the restore left, whether or not the restore raised;
    an error of the deletion is what the caller gets; and when only the
    deletion fails, the working directory is the original one already when
    the deletion starts, and still when the error reaches the caller. *)
Theorem exit_restores_then_deletes {A} (block : path -> M A) h w orig tmp :
  res (entry h w) = Return (orig, tmp) ->
  let ob := block tmp h (post (entry h w)) in
  let o1 := restore_step h orig ob in
  let o2 := delete_step h orig tmp ob in
  let o := in_temp_dir block h w in
  (exists e1 e2,
     log o = log (entry h w) ++ log ob ++ [Ev (Chdir orig) e1; Ev (Rmtree tmp) e2] /\
     (e1 = None <-> res o1 = Return tt) /\
     (e2 = None <-> res o2 = Return tt)) /\
  post o = post o2 /\
  (forall e2, res o2 = Raise e2 -> res o = Raise e2) /\
  (forall a e2,
     res ob = Return a -> res o1 = Return tt -> res o2 = Raise e2 ->
     res o = Raise e2 /\ cwd (post o1) = cwd w /\ cwd (post o) = cwd w).
Proof.
  intros He ob o1 o2 o.
  pose proof (in_temp_dir_entered block h w orig tmp He) as Hrun.
  cbv beta zeta in Hrun. fold ob o1 o2 o in Hrun.
  destruct (entry_facts _ _ _ _ He) as (Horig & _).
  split; [|split; [|split]].
  - exact (in_temp_dir_log block h w orig tmp He).
  - by rewrite Hrun.
  - intros e2 H2. rewrite Hrun; cbn [res post log]. by rewrite H2.
  - intros a e2 Hb H1 H2. rewrite Hrun; cbn [res post log]. rewrite H2. cbn.
    assert (Hc : cwd (post o1) = cwd w).
    { unfold o1, restore_step in *. rewrite (os_chdir_ok _ _ _ H1). done. }
    repeat split; [done|].
    unfold o2, delete_step. cbv zeta. rewrite shutil_rmtree_cwd. exact Hc.
Qed.

(** C2. After the scope is left, with the block having returned or raised,
    the working directory is the one recorded before entry, provided the
    restore step raised no error. *)
Theorem cwd_restored_after_scope {A} (block : path -> M A) h w orig tmp :
  res (entry h w) = Return (orig, tmp) ->
  res (restore_step h orig (block tmp h (post (entry h w)))) = Return tt ->
  orig = cwd w /\ cwd (post (in_temp_dir block h w)) = cwd w.
Proof.
  intros He H1. split.
  - by destruct (entry_facts _ _ _ _ He) as (Horig & _).
  - by eapply in_temp_dir_cwd.
Qed.

(** C3. After the scope is left, the temporary directory created at entry,
    in which the block ran, and everything below it no longer exist, provided
    the delete step raised no error: the run ends with a [shutil.rmtree] of
    that directory that did not fail. *)
Theorem tempdir_gone_after_scope {A} (block : path -> M A) h w orig tmp :
  res (entry h w) = Return (orig, tmp) ->
  res (delete_step h orig tmp (block tmp h (post (entry h w)))) = Return tt ->
  let w1 := post (entry h w) in
  let ob := block tmp h w1 in
  let o := in_temp_dir block h w in
  let r := root (post o) in
  is_dir_at tmp (root w1) = true /\
  cwd w1 = tmp /\
  o = Out (settle (res ob)
             (settle (res (restore_step h orig ob)) (res (delete_step h orig tmp ob))))
          (post (delete_step h orig tmp ob))
          (log (entry h w) ++ log ob ++
           log (restore_step h orig ob) ++ log (delete_step h orig tmp ob)) /\
  (exists e1,
     log o = log (entry h w) ++ log ob ++ [Ev (Chdir orig) e1; Ev (Rmtree tmp) None]) /\
  exists_at tmp r = false /\
  forall q, lookup_path (tmp ++ q) r = None.
Proof.
  intros He H2 w1 ob o r.
  destruct (entry_facts _ _ _ _ He) as (_ & Hcwd & _ & Hnew).
  pose proof (in_temp_dir_gone block h w orig tmp He H2) as Hgone. fold o r in Hgone.
  split; [unfold is_dir_at, w1; by rewrite Hnew|].
  split; [exact Hcwd|].
  split; [exact (in_temp_dir_entered block h w orig tmp He)|].
  split; [|split].
  - destruct (in_temp_dir_log block h w orig tmp He) as (e1 & e2 & Hl & _ & He2).
    cbv zeta in He2. apply He2 in H2. subst e2. by exists e1.
  - unfold exists_at. by rewrite Hgone.
  - intros q. by apply lookup_path_below.
Qed.

(** C4. Whenever the block of an [in_temp_dir] scope starts, the directory
    it is given exists, is empty and is the working directory; when entry
    fails the block does not start at all. *)
Theorem block_starts_in_empty_tempdir {A} (block : path -> M A) h w :
  match res (entry h w) with
  | Return (orig, tmp) =>
      let w1 := post (entry h w) in
      let ob := block tmp h w1 in
      in_temp_dir block h w =
        Out (settle (res ob)
               (settle (res (restore_step h orig ob)) (res (delete_step h orig tmp ob))))
            (post (delete_step h orig tmp ob))
            (log (entry h w) ++ log ob ++
             log (restore_step h orig ob) ++ log (delete_step h orig tmp ob)) /\
      is_dir_at tmp (root w1) = true /\
      is_empty_dir_at tmp (root w1) = true /\
      cwd w1 = tmp
  | Raise e =>
      in_temp_dir block h w = Out (Raise e) (post (entry h w)) (log (entry h w))
  end.
Proof.
  destruct (res (entry h w)) as [[orig tmp]|e] eqn:He.
  - destruct (entry_facts _ _ _ _ He) as (_ & Hcwd & _ & Hnew).
    split; [by apply in_temp_dir_entered|].
    unfold is_dir_at, is_empty_dir_at. rewrite Hnew. done.
  - by apply in_temp_dir_not_entered.
Qed.

(** C9. If the [os.chdir] into the new directory raises, [in_temp_dir]
    raises that error with the working directory unchanged; the block and
    the exit path do not run, so the directory just created is not deleted
    and is still there. *)
Theorem entry_chdir_failure_leaks_tempdir {A} (block : path -> M A) h w orig tmp e :
  let oa := os_getcwd h w in
  let ob := tempfile_mkdtemp h (post oa) in
  let oc := os_chdir tmp h (post ob) in
  res oa = Return orig ->
  res ob = Return tmp ->
  res oc = Raise e ->
  let o := in_temp_dir block h w in
  res o = Raise e /\
  post o = post oc /\
  cwd (post o) = cwd w /\
  is_empty_dir_at tmp (root (post o)) = true /\
  (exists err,
     log o = [Ev Getcwd None; Ev Mkdtemp None; Ev (Chdir tmp) (Some err)]).
Proof.
  intros oa ob oc Ha Hb Hc o.
  assert (Hrun : o = Out (Raise e) (post oc) (log oa ++ log ob ++ log oc)).
  { unfold o, in_temp_dir, bind. cbv zeta. fold oa. rewrite Ha. cbn. fold ob.
    rewrite Hb. cbn. fold oc. rewrite Hc. done. }
  rewrite Hrun; cbn [res post log].
  destruct (os_getcwd_ok _ _ _ Ha) as (_ & Hra & Hca).
  destruct (tempfile_mkdtemp_ok _ _ _ Hb) as [_ Hnew].
  repeat split.
  - unfold oc. rewrite (os_chdir_fail _ _ _ _ Hc).
    unfold ob. rewrite tempfile_mkdtemp_cwd. exact Hca.
  - unfold oc. rewrite os_chdir_root. unfold is_empty_dir_at.
    fold oa ob in Hnew. by rewrite Hnew.
  - unfold oa, ob, os_getcwd, tempfile_mkdtemp in *.
    rewrite (host_call_return_log _ _ _ _ _ Ha), (host_call_return_log _ _ _ _ _ Hb).
    unfold oc, os_chdir in *.
    match goal with |- context [log (host_call ?c ?b ?h1 ?w1)] =>
      destruct (step_log c b h1 w1) as (err & Hl & Herr) end.
    rewrite Hl. destruct err as [err|].
    + by exists err.
    + destruct Herr as [Herr _]. destruct (Herr eq_refl) as [[] Hret].
      rewrite Hret in Hc. discriminate.
Qed.

(** C8. The callable [within_temp_dir] returns has the documentation string
    of the function it wraps, and its name, module and qualified name where
    the wrapped object has them. *)
Theorem wraps_keeps_name_and_doc {V R} (f : callable V R) :
  fn_doc (within_temp_dir f) = fn_doc f /\
  (forall n, fn_name f = Some n -> fn_name (within_temp_dir f) = Some n) /\
  (forall n, fn_qualname f = Some n -> fn_qualname (within_temp_dir f) = Some n) /\
  (forall n, fn_module f = Some n -> fn_module (within_temp_dir f) = Some n) /\
  (fn_name f = None -> fn_name (within_temp_dir f) = Some "decorated").
Proof.
  unfold within_temp_dir, functools_wraps. cbn.
  repeat split; try (intros n ->; done). intros ->. done.
Qed.

(** C5, as amended.  When the block raises, both cleanup steps are still
    attempted, restore first; the block's error is what the caller gets when
    neither step raises, with the working directory restored and the
    temporary directory gone; when a cleanup step raises, the error of the
    last step that raised is what the caller gets, and the block's error is
    in its context chain. *)
Theorem block_error_after_cleanup {A} (block : path -> M A) h w orig tmp e :
  res (entry h w) = Return (orig, tmp) ->
  let ob := block tmp h (post (entry h w)) in
  let o1 := restore_step h orig ob in
  let o2 := delete_step h orig tmp ob in
  let o := in_temp_dir block h w in
  res ob = Raise e ->
  (exists e1 e2,
     log o = log (entry h w) ++ log ob ++ [Ev (Chdir orig) e1; Ev (Rmtree tmp) e2]) /\
  (res o1 = Return tt -> res o2 = Return tt ->
   res o = Raise e /\ cwd (post o) = cwd w /\ exists_at tmp (root (post o)) = false) /\
  (forall e1, res o1 = Raise e1 -> res o2 = Return tt ->
   res o = Raise e1 /\ exn_context e1 = Some e) /\
  (forall e2, res o2 = Raise e2 -> res o = Raise e2 /\ chained e e2).
Proof.
  intros He ob o1 o2 o Hb.
  pose proof (in_temp_dir_entered block h w orig tmp He) as Hrun.
  cbv beta zeta in Hrun. fold ob o1 o2 o in Hrun.
  split; [|split; [|split]].
  - destruct (in_temp_dir_log block h w orig tmp He) as (e1 & e2 & Hl & _).
    by exists e1, e2.
  - intros H1 H2. repeat split.
    + rewrite Hrun; cbn [res post log]. by rewrite H2, H1.
    + by eapply in_temp_dir_cwd.
    + unfold exists_at, o. by rewrite (in_temp_dir_gone block h w orig tmp He H2).
  - intros e1 H1 H2. split.
    + rewrite Hrun; cbn [res post log]. by rewrite H2, H1.
    + by eapply restore_step_context.
  - intros e2 H2. split.
    + rewrite Hrun; cbn [res post log]. by rewrite H2.
    + by eapply delete_step_chained.
Qed.

(** C6, as amended.  The callable [within_temp_dir f] enters an
    [in_temp_dir] scope; when entry fails it raises that error; otherwise it
    calls [f] with the arguments it was given, in the temporary directory,
    runs the cleanup after it, and gives back what [f] returned or raised
    when neither cleanup step raises, and the error of the last cleanup step
    that raised otherwise. *)
Theorem within_temp_dir_runs_in_scope {V R} (f : callable V R)
    (args : list V) (kwargs : gmap string V) h w :
  let o := fn_call (within_temp_dir f) args kwargs h w in
  match res (entry h w) with
  | Raise e => o = Out (Raise e) (post (entry h w)) (log (entry h w))
  | Return (orig, tmp) =>
      let w1 := post (entry h w) in
      let oc := fn_call f args kwargs h w1 in
      let o1 := restore_step h orig oc in
      let o2 := delete_step h orig tmp oc in
      cwd w1 = tmp /\
      (exists e1 e2,
         log o = log (entry h w) ++ log oc ++ [Ev (Chdir orig) e1; Ev (Rmtree tmp) e2]) /\
      post o = post o2 /\
      (res o1 = Return tt -> res o2 = Return tt -> res o = res oc) /\
      (forall e1, res o1 = Raise e1 -> res o2 = Return tt -> res o = Raise e1) /\
      (forall e2, res o2 = Raise e2 -> res o = Raise e2)
  end.
Proof.
  intros o. unfold within_temp_dir, functools_wraps in o. cbn in o.
  destruct (res (entry h w)) as [[orig tmp]|e] eqn:He.
  - intros w1 oc o1 o2.
    pose proof (in_temp_dir_entered (fun _ => fn_call f args kwargs) h w orig tmp He)
      as Hrun.
    cbv beta zeta in Hrun. fold w1 oc o1 o2 o in Hrun.
    destruct (entry_facts _ _ _ _ He) as (_ & Hcwd & _).
    split; [done|]. split; [|split; [|split; [|split]]].
    + destruct (in_temp_dir_log (fun _ => fn_call f args kwargs) h w orig tmp He)
        as (e1 & e2 & Hl & _).
      by exists e1, e2.
    + by rewrite Hrun.
    + intros H1 H2. rewrite Hrun; cbn [res post log]. by rewrite H2, H1.
    + intros e1 H1 H2. rewrite Hrun; cbn [res post log]. by rewrite H2, H1.
    + intros e2 H2. rewrite Hrun; cbn [res post log]. by rewrite H2.
  - by apply in_temp_dir_not_entered.
Qed.


(** C10, as amended.  Wherever the block leaves the working directory, the
    restore step of the exit path is [os.chdir] to the directory that was
    current at entry; when that step raises no error the working directory
    after the scope is that directory, and when it raises, the working
    directory stays where the block left it. *)
Theorem restore_targets_entry_cwd {A} (block : path -> M A) h w orig tmp :
  res (entry h w) = Return (orig, tmp) ->
  let ob := block tmp h (post (entry h w)) in
  let o1 := restore_step h orig ob in
  let o := in_temp_dir block h w in
  (exists e1 e2,
     log o = log (entry h w) ++ log ob ++
             [Ev (Chdir (cwd w)) e1; Ev (Rmtree tmp) e2] /\
     (e1 = None <-> res o1 = Return tt)) /\
  (res o1 = Return tt -> cwd (post o) = cwd w) /\
  (forall e1, res o1 = Raise e1 -> cwd (post o) = cwd (post ob)).
Proof.
  intros He ob o1 o.
  destruct (entry_facts _ _ _ _ He) as (Horig & _).
  split; [|split].
  - destruct (in_temp_dir_log block h w orig tmp He) as (e1 & e2 & Hl & H1 & _).
    exists e1, e2. rewrite <- Horig. done.
  - intros H1. by eapply in_temp_dir_cwd.
  - intros e1 H1. unfold o.
    rewrite (in_temp_dir_entered block h w orig tmp He). cbn.
    unfold delete_step. cbv zeta. rewrite shutil_rmtree_cwd.
    by apply (os_chdir_fail _ _ _ _ H1).
Qed.

(** ** The claims at work, and where the amended claims part from the
    claims as first stated *)

(** C1 on [world0], for a block that leaves a file in a directory it made
    read-only: only the deletion fails, the caller gets its error, and the
    working directory is back. *)
Lemma exit_restores_then_deletes_witness :
  res (entry None world0) = Return (home, tmp0) /\
  res (in_temp_dir block_locked_quiet None world0) =
    Raise (Exn "PermissionError" None) /\
  cwd (post (in_temp_dir block_locked_quiet None world0)) = cwd world0.
Proof.
  assert (He : res (entry None world0) = Return (home, tmp0))
    by (vm_compute; reflexivity).
  split; [exact He|].
  destruct (exit_restores_then_deletes block_locked_quiet None world0 home tmp0 He)
    as (_ & _ & _ & H).
  destruct (H tt (Exn "PermissionError" None)) as (Hr & _ & Hc);
    [vm_compute; reflexivity..|].
  split; assumption.
Defined.

(** C2 on [world0], for a block that raises. *)
Lemma cwd_restored_after_scope_witness :
  res (entry None world0) = Return (home, tmp0) /\
  res (restore_step None home
         (block_value_error tmp0 None (post (entry None world0)))) = Return tt /\
  home = cwd world0 /\
  cwd (post (in_temp_dir block_value_error None world0)) = cwd world0.
Proof.
  assert (He : res (entry None world0) = Return (home, tmp0))
    by (vm_compute; reflexivity).
  assert (H1 : res (restore_step None home
                      (block_value_error tmp0 None (post (entry None world0))))
               = Return tt) by (vm_compute; reflexivity).
  split; [exact He|]. split; [exact H1|].
  exact (cwd_restored_after_scope block_value_error None world0 home tmp0 He H1).
Defined.

(** C3 on [world0], for a block that writes [data.txt]: the file is there
    when the block ends, the run ends with the deletion of the directory,
    and after the scope neither the directory nor the file exists. *)
Lemma tempdir_gone_after_scope_witness :
  res (entry None world0) = Return (home, tmp0) /\
  res (delete_step None home tmp0
         (block_data tmp0 None (post (entry None world0)))) = Return tt /\
  lookup_path (tmp0 ++ ["data.txt"])
    (root (post (block_data tmp0 None (post (entry None world0))))) =
    Some (File "42") /\
  (exists e1,
     log (in_temp_dir block_data None world0) =
       log (entry None world0) ++
       log (block_data tmp0 None (post (entry None world0))) ++
       [Ev (Chdir home) e1; Ev (Rmtree tmp0) None]) /\
  exists_at tmp0 (root (post (in_temp_dir block_data None world0))) = false /\
  lookup_path (tmp0 ++ ["data.txt"])
    (root (post (in_temp_dir block_data None world0))) = None.
Proof.
  assert (He : res (entry None world0) = Return (home, tmp0))
    by (vm_compute; reflexivity).
  assert (H2 : res (delete_step None home tmp0
                      (block_data tmp0 None (post (entry None world0))))
               = Return tt) by (vm_compute; reflexivity).
  split; [exact He|]. split; [exact H2|]. split; [vm_compute; reflexivity|].
  destruct (tempdir_gone_after_scope block_data None world0 home tmp0 He H2)
    as (_ & _ & _ & Hlog & Hdir & Hbelow).
  split; [exact Hlog|]. split; [exact Hdir|exact (Hbelow ["data.txt"])].
Defined.

(** C4 on [world0], for a block that reports what it finds. *)
Lemma block_starts_in_empty_tempdir_witness :
  res (in_temp_dir block_probe None world0) = Return (tmp0, tmp0, true).
Proof.
  pose proof (block_starts_in_empty_tempdir block_probe None world0) as H.
  assert (He : res (entry None world0) = Return (home, tmp0))
    by (vm_compute; reflexivity).
  rewrite He in H. destruct H as (Hrun & _ & Hempty & Hcwd).
  rewrite Hrun. cbn [res]. unfold block_probe at 1. cbn [res].
  rewrite Hempty, Hcwd. vm_compute; reflexivity.
Defined.

(** C5 as first stated fails on [world0] for [block_locked]: the block
    raises [ValueError], the deletion then fails, and the caller gets
    [PermissionError]. *)
Lemma block_error_replaced_by_cleanup_error :
  res (entry None world0) = Return (home, tmp0) /\
  res (block_locked tmp0 None (post (entry None world0))) =
    Raise (Exn "ValueError" None) /\
  res (in_temp_dir block_locked None world0) =
    Raise (Exn "PermissionError" (Some (Exn "ValueError" None))) /\
  res (in_temp_dir block_locked None world0) <> Raise (Exn "ValueError" None) /\
  exists_at tmp0 (root (post (in_temp_dir block_locked None world0))) = true.
Proof. vm_compute. repeat split; discriminate. Qed.

(** C5, as amended, on [world0] for a block that raises [ValueError]. *)
Lemma block_error_after_cleanup_witness :
  res (entry None world0) = Return (home, tmp0) /\
  res (block_value_error tmp0 None (post (entry None world0))) =
    Raise (Exn "ValueError" None) /\
  res (in_temp_dir block_value_error None world0) = Raise (Exn "ValueError" None) /\
  cwd (post (in_temp_dir block_value_error None world0)) = cwd world0 /\
  exists_at tmp0 (root (post (in_temp_dir block_value_error None world0))) = false.
Proof.
  assert (He : res (entry None world0) = Return (home, tmp0))
    by (vm_compute; reflexivity).
  assert (Hb : res (block_value_error tmp0 None (post (entry None world0))) =
               Raise (Exn "ValueError" None)) by (vm_compute; reflexivity).
  split; [exact He|]. split; [exact Hb|].
  destruct (block_error_after_cleanup block_value_error None world0 home tmp0
              (Exn "ValueError" None) He Hb) as (_ & H & _).
  apply H; vm_compute; reflexivity.
Defined.

(** C6 as first stated fails on [world0] for [tidy_add_xy] called with
    [(3)]: the function returns [5] in the scope, the deletion of the
    directory it already removed fails, and the wrapped call raises. *)
Lemma wrapped_result_lost :
  res (entry None world0) = Return (home, tmp0) /\
  res (fn_call tidy_add_xy [3%Z] ∅ None (post (entry None world0))) = Return 5%Z /\
  res (fn_call (within_temp_dir tidy_add_xy) [3%Z] ∅ None world0) =
    Raise (Exn "FileNotFoundError" None).
Proof. vm_compute. repeat split. Qed.

(** C6, as amended, on [world0] for [f(x, y=2)] called with [(3)]: the call
    runs in the temporary directory and, the cleanup done, returns [5]. *)
Lemma within_temp_dir_runs_in_scope_witness :
  cwd (post (entry None world0)) = tmp0 /\
  cwd (post (entry None world0)) <> cwd world0 /\
  res (fn_call (within_temp_dir add_xy) [3%Z] ∅ None world0) = Return 5%Z.
Proof.
  pose proof (within_temp_dir_runs_in_scope add_xy [3%Z] ∅ None world0) as H.
  cbv zeta in H.
  assert (He : res (entry None world0) = Return (home, tmp0))
    by (vm_compute; reflexivity).
  rewrite He in H. destruct H as (Hcwd & _ & _ & Hres & _).
  split; [exact Hcwd|]. split; [rewrite Hcwd; discriminate|].
  rewrite Hres; vm_compute; reflexivity.
Defined.


(** The premise on the generator is needed for the paths to differ: on
    [world_repeat], where it yields one name twice, two scopes in a row,
    both left without error, are given the same path. *)
Lemma sequence_reuses_path :
  res (in_sequence [block_data; block_data] None world_repeat) =
    Return [(tmp0, false); (tmp0, false)] /\
  ~ NoDup [tmp0; tmp0].
Proof.
  split; [vm_compute; reflexivity|].
  intros H. apply NoDup_cons_1_1 in H. apply H. left.
Qed.


(** C8 for [f(x, y=2)]. *)
Lemma wraps_keeps_name_and_doc_witness :
  fn_name (within_temp_dir add_xy) = Some "f" /\
  fn_doc (within_temp_dir add_xy) = Some "Add x and y.".
Proof.
  destruct (wraps_keeps_name_and_doc add_xy) as (Hdoc & Hname & _).
  split; [exact (Hname "f" eq_refl)|exact Hdoc].
Defined.

(** C9 on [world_chdir_fault]: the host rejects the [os.chdir] into the new
    directory. *)
Lemma entry_chdir_failure_leaks_tempdir_witness :
  res (in_temp_dir block_data None world_chdir_fault) = Raise (Exn "OSError" None) /\
  cwd (post (in_temp_dir block_data None world_chdir_fault)) = cwd world_chdir_fault /\
  is_empty_dir_at tmp0 (root (post (in_temp_dir block_data None world_chdir_fault)))
    = true.
Proof.
  destruct (entry_chdir_failure_leaks_tempdir block_data None world_chdir_fault
              home tmp0 (Exn "OSError" None))
    as (Hr & _ & Hc & Hd & _); [vm_compute; reflexivity..|].
  split; [exact Hr|]. split; [exact Hc|exact Hd].
Defined.

(** C10 as first stated fails on [world0] for [block_burn_home]: the block
    goes to the root and removes the directory it was started from; the
    restore step raises and the working directory stays at the root. *)
Lemma restore_fails_when_home_removed :
  res (entry None world0) = Return (home, tmp0) /\
  cwd (post (block_burn_home tmp0 None (post (entry None world0)))) = [] /\
  cwd (post (in_temp_dir block_burn_home None world0)) = [] /\
  cwd (post (in_temp_dir block_burn_home None world0)) <> cwd world0.
Proof. vm_compute. repeat split; discriminate. Qed.

(** C10, as amended, on [world0] for a block that walks away to the root. *)
Lemma restore_targets_entry_cwd_witness :
  res (entry None world0) = Return (home, tmp0) /\
  cwd (post (block_wander tmp0 None (post (entry None world0)))) = [] /\
  cwd (post (in_temp_dir block_wander None world0)) = home.
Proof.
  assert (He : res (entry None world0) = Return (home, tmp0))
    by (vm_compute; reflexivity).
  split; [exact He|]. split; [vm_compute; reflexivity|].
  destruct (restore_targets_entry_cwd block_wander None world0 home tmp0 He)
    as (_ & H & _).
  apply H. vm_compute; reflexivity.
Defined.

(** * Further facts about the scope *)

(** ** What the tree operations leave alone *)

Lemma find_entry_set_entry_ne k k' n es :
  k <> k' -> find_entry k' (set_entry k n es) = find_entry k' es.
Proof.
  intros Hne. induction es as [|[k0 c] es IH]; cbn.
  - by rewrite decide_False.
  - destruct (decide (k0 = k)) as [->|Hk]; cbn.
    + by rewrite !decide_False.
    + by rewrite IH.
Qed.

Lemma find_entry_drop_entry_ne k k' es :
  k <> k' -> find_entry k' (drop_entry k es) = find_entry k' es.
Proof.
  intros Hne. induction es as [|[k0 c] es IH]; cbn; [done|].
  destruct (decide (k0 = k)) as [->|Hk]; cbn.
  - by rewrite decide_False.
  - by rewrite IH.
Qed.

Lemma stat_nil r :
  stat [] r = match r with File d => Some (IsFile d) | Dir m _ => Some (IsDir m) end.
Proof. by destruct r. Qed.

Lemma stat_cons k q m es :
  stat (k :: q) (Dir m es) =
  match find_entry k es with Some c => stat q c | None => None end.
Proof. unfold stat. cbn. by destruct (find_entry k es). Qed.

Lemma stat_cons_file k q d : stat (k :: q) (File d) = None.
Proof. done. Qed.

Lemma stat_none_below p q r : stat p r = None -> stat (p ++ q) r = None.
Proof.
  unfold stat. intros H.
  destruct (lookup_path p r) as [[d|m es]|] eqn:Hp; try done.
  by rewrite (lookup_path_below _ q _ Hp).
Qed.


Lemma not_prefix_head (k k' : string) (q : path) :
  ~ [k] `prefix_of` k' :: q -> k <> k'.
Proof. intros H ->. apply H. apply prefix_cons, prefix_nil. Qed.

Lemma not_prefix_tail (k : string) (p q : path) :
  ~ k :: p `prefix_of` k :: q -> ~ p `prefix_of` q.
Proof. intros H Hp. apply H. by apply prefix_cons. Qed.

Lemma stat_graft_outside p n r q :
  ~ p `prefix_of` q -> stat q (graft p n r) = stat q r.
Proof.
  revert r q. induction p as [|k p IH]; intros r q Hq.
  - destruct Hq. apply prefix_nil.
  - destruct r as [d|m es]; cbn; [done|].
    destruct (find_entry k es) as [c|] eqn:Hk; [|done].
    destruct q as [|k' q]; [done|].
    rewrite !stat_cons.
    destruct (decide (k = k')) as [<-|Hne].
    + rewrite find_entry_set_entry, Hk. apply IH. by eapply not_prefix_tail.
    + by rewrite find_entry_set_entry_ne.
Qed.

Lemma stat_create_outside n0 p r r' q :
  create n0 p r = inr r' -> ~ p `prefix_of` q -> stat q r' = stat q r.
Proof.
  revert r r' q. induction p as [|k p IH]; intros r r' q.
  - destruct r; cbn; discriminate.
  - destruct r as [d|m es]; cbn; [discriminate|].
    destruct (can_search m); [|discriminate].
    destruct (find_entry k es) as [c|] eqn:Hk.
    + destruct p as [|k1 p]; [discriminate|].
      destruct (create n0 (k1 :: p) c) as [e|c'] eqn:Hc; [discriminate|].
      intros [= <-] Hq. destruct q as [|k' q]; [done|].
      rewrite !stat_cons.
      destruct (decide (k = k')) as [<-|Hne].
      * rewrite find_entry_set_entry, Hk.
        eapply IH; [exact Hc|]. by eapply not_prefix_tail.
      * by rewrite find_entry_set_entry_ne.
    + destruct p as [|k1 p]; [|discriminate].
      destruct (can_write m); [|discriminate].
      intros [= <-] Hq. destruct q as [|k' q]; [done|].
      rewrite !stat_cons.
      by rewrite find_entry_set_entry_ne by by eapply not_prefix_head.
Qed.

Lemma stat_rmdir_outside p r r' q :
  rmdir p r = inr r' -> ~ p `prefix_of` q -> stat q r' = stat q r.
Proof.
  revert r r' q. induction p as [|k p IH]; intros r r' q; [discriminate|].
  destruct r as [d|m es]; cbn; [discriminate|].
  destruct (can_search m); [|discriminate].
  destruct (find_entry k es) as [c|] eqn:Hk; [|discriminate].
  destruct p as [|k1 p].
  - destruct c as [d|mc [|e es']]; try discriminate.
    destruct (can_write m); [|discriminate].
    intros [= <-] Hq. destruct q as [|k' q]; [done|].
    rewrite !stat_cons.
    by rewrite find_entry_drop_entry_ne by by eapply not_prefix_head.
  - destruct (rmdir (k1 :: p) c) as [e|c'] eqn:Hc; [discriminate|].
    intros [= <-] Hq. destruct q as [|k' q]; [done|].
    rewrite !stat_cons.
    destruct (decide (k = k')) as [<-|Hne].
    + rewrite find_entry_set_entry, Hk.
      eapply IH; [exact Hc|]. by eapply not_prefix_tail.
    + by rewrite find_entry_set_entry_ne.
Qed.

Lemma stat_rmtree_tree_outside p r x r' q :
  rmtree_tree p r = (x, r') -> ~ p `prefix_of` q -> stat q r' = stat q r.
Proof.
  unfold rmtree_tree. intros Hrm Hq.
  destruct (resolve p r) as [e|[d|m es]]; try by injection Hrm as _ <-.
  destruct (purge (Dir m es)) as [ok d'].
  pose proof (stat_graft_outside p d' r q Hq) as Hg.
  destruct ok; [|by injection Hrm as _ <-].
  destruct (rmdir p (graft p d' r)) as [e|r2] eqn:Hr; injection Hrm as _ <-; [done|].
  by rewrite (stat_rmdir_outside _ _ _ _ Hr Hq).
Qed.

(** ** What the calls leave alone *)

Lemma shutil_rmtree_outside p h w q :
  ~ p `prefix_of` q ->
  stat q (root (post (shutil_rmtree p h w))) = stat q (root w).
Proof.
  intros Hq. unfold shutil_rmtree. host_cases w;
    destruct (rmtree_tree p (root w)) as [[e|] r'] eqn:Hrm; cbn;
    by eapply stat_rmtree_tree_outside.
Qed.

Lemma mkdtemp_loop_shape tries dir cands r t r' ns :
  mkdtemp_loop tries dir cands r = (inr t, r', ns) ->
  (exists name, name ∈ cands /\ t = dir ++ ["tmp" +:+ name]) /\
  forall q, ~ t `prefix_of` q -> stat q r' = stat q r.
Proof.
  revert cands. induction tries as [|tries IH]; intros cands; [done|].
  destruct cands as [|name cands]; [done|]. cbn.
  destruct (mkdir (dir ++ ["tmp" +:+ name]) r) as [e|r1] eqn:Hmk.
  - destruct e; try done. intros Hl.
    destruct (IH _ Hl) as [(n & Hin & ->) Hframe].
    split; [|done]. exists n. split; [by right|done].
  - intros [= <- <- <-]. split.
    + exists name. split; [by left|done].
    + intros q Hq. by eapply stat_create_outside.
Qed.

Lemma mkdtemp_loop_fail tries dir cands r e r' ns :
  mkdtemp_loop tries dir cands r = (inl e, r', ns) -> r' = r.
Proof.
  revert cands. induction tries as [|tries IH]; intros cands; [by intros [= _ <- _]|].
  destruct cands as [|name cands]; [by intros [= _ <- _]|]. cbn.
  destruct (mkdir (dir ++ ["tmp" +:+ name]) r) as [e1|r1] eqn:Hmk; [|done].
  destruct e1; try (by intros [= _ <- _]). apply IH.
Qed.

Lemma tempfile_mkdtemp_shape h w t :
  res (tempfile_mkdtemp h w) = Return t ->
  (exists name, name ∈ names w /\ t = tempdir w ++ ["tmp" +:+ name]) /\
  forall q, ~ t `prefix_of` q ->
    stat q (root (post (tempfile_mkdtemp h w))) = stat q (root w).
Proof.
  unfold tempfile_mkdtemp. host_cases w;
    destruct (mkdtemp_loop _ _ _ _) as [[[e|t'] r'] ns] eqn:Hloop; cbn; try done;
    intros [= <-]; by eapply mkdtemp_loop_shape.
Qed.

Lemma tempfile_mkdtemp_fail h w e :
  res (tempfile_mkdtemp h w) = Raise e ->
  root (post (tempfile_mkdtemp h w)) = root w.
Proof.
  unfold tempfile_mkdtemp. host_cases w;
    destruct (mkdtemp_loop _ _ _ _) as [[[e'|t'] r'] ns] eqn:Hloop; cbn; try done;
    intros _; by eapply mkdtemp_loop_fail.
Qed.

Lemma tempfile_mkdtemp_tempdir h w :
  tempdir (post (tempfile_mkdtemp h w)) = tempdir w.
Proof.
  unfold tempfile_mkdtemp. host_cases w;
    destruct (mkdtemp_loop _ _ _ _) as [[[e|t] r'] ns]; done.
Qed.

Lemma os_getcwd_frame h w :
  root (post (os_getcwd h w)) = root w /\
  cwd (post (os_getcwd h w)) = cwd w /\
  tempdir (post (os_getcwd h w)) = tempdir w /\
  names (post (os_getcwd h w)) = names w.
Proof.
  unfold os_getcwd. host_cases w; destruct (is_dir_at (cwd w) (root w)); done.
Qed.

Lemma os_chdir_tempdir p h w : tempdir (post (os_chdir p h w)) = tempdir w.
Proof.
  unfold os_chdir. host_cases w;
    destruct (resolve p (root w)) as [e|[d|m es]]; cbn; try done;
    destruct (can_search m); done.
Qed.

Lemma shutil_rmtree_tempdir p h w : tempdir (post (shutil_rmtree p h w)) = tempdir w.
Proof.
  unfold shutil_rmtree. host_cases w;
    destruct (rmtree_tree p (root w)) as [[e|] r']; done.
Qed.

Lemma write_file_outside p data h w q :
  ~ p `prefix_of` q ->
  stat q (root (post (write_file p data h w))) = stat q (root w).
Proof.
  intros Hq. unfold write_file. host_cases w;
    destruct (create (File data) p (root w)) as [e|r'] eqn:Hc; cbn; try done;
    by eapply stat_create_outside.
Qed.

(** ** What the scope leaves alone *)

Lemma entry_shape h w orig tmp :
  res (entry h w) = Return (orig, tmp) ->
  (exists name, name ∈ names w /\ tmp = tempdir w ++ ["tmp" +:+ name]) /\
  tempdir (post (entry h w)) = tempdir w /\
  forall q, ~ tmp `prefix_of` q ->
    stat q (root (post (entry h w))) = stat q (root w).
Proof.
  intros He. destruct (entry_stages _ _ _ _ He) as (Ha & Hb & Hc & -> & _).
  destruct (os_getcwd_frame h w) as (Hr & _ & Ht & Hn).
  destruct (tempfile_mkdtemp_shape _ _ _ Hb) as [Hname Hframe].
  rewrite Hn, Ht in Hname. split; [exact Hname|]. split.
  - by rewrite os_chdir_tempdir, tempfile_mkdtemp_tempdir.
  - intros q Hq. rewrite os_chdir_root, (Hframe q Hq), Hr. done.
Qed.

Lemma stat_fresh_below h w orig tmp q :
  res (entry h w) = Return (orig, tmp) ->
  tmp `prefix_of` q -> stat q (root w) = None.
Proof.
  intros He [q' ->].
  destruct (entry_facts _ _ _ _ He) as (_ & _ & Hold & _).
  apply stat_none_below. unfold stat. by rewrite Hold.
Qed.

Lemma delete_step_outside {A} h orig tmp (ob : outcome A) q :
  ~ tmp `prefix_of` q ->
  stat q (root (post (delete_step h orig tmp ob))) = stat q (root (post ob)).
Proof.
  intros Hq. unfold delete_step, restore_step. cbv zeta.
  by rewrite shutil_rmtree_outside, os_chdir_root.
Qed.

Lemma in_temp_dir_post {A} (block : path -> M A) h w orig tmp :
  res (entry h w) = Return (orig, tmp) ->
  post (in_temp_dir block h w) =
  post (delete_step h orig tmp (block tmp h (post (entry h w)))).
Proof. intros He. by rewrite (in_temp_dir_entered block h w orig tmp He). Qed.

Lemma in_temp_dir_res {A} (block : path -> M A) h w orig tmp :
  res (entry h w) = Return (orig, tmp) ->
  let ob := block tmp h (post (entry h w)) in
  res (in_temp_dir block h w) =
  settle (res ob)
    (settle (res (restore_step h orig ob)) (res (delete_step h orig tmp ob))).
Proof. intros He. by rewrite (in_temp_dir_entered block h w orig tmp He). Qed.

Lemma in_temp_dir_tempdir {A} (block : path -> M A) h w orig tmp :
  res (entry h w) = Return (orig, tmp) ->
  tempdir (post (in_temp_dir block h w)) =
  tempdir (post (block tmp h (post (entry h w)))).
Proof.
  intros He. rewrite (in_temp_dir_post block h w orig tmp He).
  unfold delete_step, restore_step. cbv zeta.
  by rewrite shutil_rmtree_tempdir, os_chdir_tempdir.
Qed.

Lemma in_temp_dir_outside {A} (block : path -> M A) h w orig tmp q :
  res (entry h w) = Return (orig, tmp) ->
  ~ tmp `prefix_of` q ->
  stat q (root (post (in_temp_dir block h w))) =
  stat q (root (post (block tmp h (post (entry h w))))).
Proof.
  intros He Hq. rewrite (in_temp_dir_post block h w orig tmp He).
  by apply delete_step_outside.
Qed.


(** * Further properties *)

(** X1. When [os.getcwd] raises, [in_temp_dir] raises that error having made
    no other call: no directory is created, the tree, the working directory
    and the name generator are as they were. *)
Theorem getcwd_failure_creates_nothing {A} (block : path -> M A) h w e :
  res (os_getcwd h w) = Raise e ->
  let o := in_temp_dir block h w in
  res o = Raise e /\
  root (post o) = root w /\
  cwd (post o) = cwd w /\
  names (post o) = names w /\
  exists err, log o = [Ev Getcwd (Some err)].
Proof.
  intros Ha o.
  assert (Hrun : o = Out (Raise e) (post (os_getcwd h w)) (log (os_getcwd h w))).
  { unfold o, in_temp_dir, bind. cbv zeta. by rewrite Ha. }
  rewrite Hrun. cbn [res post log].
  destruct (os_getcwd_frame h w) as (Hr & Hc & _ & Hn).
  repeat split; try done.
  unfold os_getcwd in *.
  match goal with |- context [log (host_call ?c ?b ?h1 ?w1)] =>
    destruct (step_log c b h1 w1) as (err & Hl & Herr) end.
  rewrite Hl. destruct err as [err|]; [by exists err|].
  destruct Herr as [Herr _]. destruct (Herr eq_refl) as [p Hret].
  rewrite Hret in Ha. discriminate.
Qed.

(** X2. When [tempfile.mkdtemp] raises, [in_temp_dir] raises that error; the
    block does not run, no [os.chdir] and no [shutil.rmtree] is attempted,
    and the tree and the working directory are as they were. *)
Theorem mkdtemp_failure_changes_nothing {A} (block : path -> M A) h w orig e :
  res (os_getcwd h w) = Return orig ->
  res (tempfile_mkdtemp h (post (os_getcwd h w))) = Raise e ->
  let o := in_temp_dir block h w in
  res o = Raise e /\
  root (post o) = root w /\
  cwd (post o) = cwd w /\
  exists err, log o = [Ev Getcwd None; Ev Mkdtemp (Some err)].
Proof.
  intros Ha Hb o.
  set (oa := os_getcwd h w) in *. set (ob := tempfile_mkdtemp h (post oa)) in *.
  assert (Hrun : o = Out (Raise e) (post ob) (log oa ++ log ob)).
  { unfold o, in_temp_dir, bind. cbv zeta. fold oa. rewrite Ha.
    cbn [res post log]. fold ob. by rewrite Hb. }
  rewrite Hrun. cbn [res post log].
  destruct (os_getcwd_frame h w) as (Hr & Hc & _ & _). fold oa in Hr, Hc.
  repeat split; try done.
  - unfold ob. by rewrite (tempfile_mkdtemp_fail _ _ _ Hb).
  - unfold ob. by rewrite tempfile_mkdtemp_cwd.
  - unfold oa, os_getcwd in *. rewrite (host_call_return_log _ _ _ _ _ Ha).
    unfold ob, tempfile_mkdtemp in *.
    match goal with |- context [log (host_call ?c ?b ?h1 ?w1)] =>
      destruct (step_log c b h1 w1) as (err & Hl & Herr) end.
    rewrite Hl. destruct err as [err|]; [by exists err|].
    destruct Herr as [Herr _]. destruct (Herr eq_refl) as [p Hret].
    rewrite Hret in Hb. discriminate.
Qed.

(** X3. The directory the block of a scope runs in is new: nothing was at
    its path, or below it, before [in_temp_dir] was entered, and when the
    block starts every path that is not at or below that directory is as it
    was before. *)
Theorem yielded_directory_is_new {A} (block : path -> M A) h w orig tmp :
  res (entry h w) = Return (orig, tmp) ->
  let w1 := post (entry h w) in
  let ob := block tmp h w1 in
  in_temp_dir block h w =
    Out (settle (res ob)
           (settle (res (restore_step h orig ob)) (res (delete_step h orig tmp ob))))
        (post (delete_step h orig tmp ob))
        (log (entry h w) ++ log ob ++
         log (restore_step h orig ob) ++ log (delete_step h orig tmp ob)) /\
  (forall q, stat (tmp ++ q) (root w) = None) /\
  forall q, ~ tmp `prefix_of` q -> stat q (root w1) = stat q (root w).
Proof.
  intros He w1 ob.
  destruct (entry_shape _ _ _ _ He) as (_ & _ & Hframe).
  split; [exact (in_temp_dir_entered block h w orig tmp He)|].
  split; [|exact Hframe].
  intros q. apply (stat_fresh_below h w orig tmp _ He). by exists q.
Qed.

(** X4. Leaving a scope changes nothing that is not at or below the
    temporary directory, whether the cleanup succeeds, fails half way or is
    rejected: every other path is as the block left it. *)
Theorem exit_removes_only_tempdir {A} (block : path -> M A) h w orig tmp q :
  res (entry h w) = Return (orig, tmp) ->
  ~ tmp `prefix_of` q ->
  stat q (root (post (in_temp_dir block h w))) =
  stat q (root (post (block tmp h (post (entry h w))))).
Proof.
  apply in_temp_dir_outside.
Qed.

(** X5. For a block that changes nothing outside the directory it is given,
    all that existed before the scope exists unchanged after it, whatever
    became of the cleanup; and when the deletion raised no error the tree
    after the scope is, path by path, the tree before it. *)
Theorem scope_round_trip {A} (block : path -> M A) h w orig tmp :
  res (entry h w) = Return (orig, tmp) ->
  let w1 := post (entry h w) in
  let ob := block tmp h w1 in
  let o := in_temp_dir block h w in
  (forall q, ~ tmp `prefix_of` q -> stat q (root (post ob)) = stat q (root w1)) ->
  (forall q k, stat q (root w) = Some k -> stat q (root (post o)) = Some k) /\
  (res (delete_step h orig tmp ob) = Return tt ->
   forall q, stat q (root (post o)) = stat q (root w)).
Proof.
  intros He w1 ob o Hblock.
  destruct (entry_shape _ _ _ _ He) as (_ & _ & Hentry).
  assert (Hout : forall q, ~ tmp `prefix_of` q ->
                           stat q (root (post o)) = stat q (root w)).
  { intros q Hq. unfold o.
    rewrite (in_temp_dir_outside block h w orig tmp q He Hq).
    fold w1 ob. rewrite (Hblock q Hq). by apply Hentry. }
  split.
  - intros q k Hk. destruct (decide (tmp `prefix_of` q)) as [Hp|Hq].
    + rewrite (stat_fresh_below _ _ _ _ _ He Hp) in Hk. discriminate.
    + by rewrite (Hout q Hq).
  - intros H2 q. destruct (decide (tmp `prefix_of` q)) as [Hp|Hq].
    + rewrite (stat_fresh_below _ _ _ _ _ He Hp). destruct Hp as [q' ->].
      apply stat_none_below. unfold stat, o.
      by rewrite (in_temp_dir_gone block h w orig tmp He H2).
    + by apply Hout.
Qed.

(** X6. A scope that returns has cleaned up: when [in_temp_dir] returns a
    value, entry gave a directory that was new, empty and the working
    directory, the block returned that value there, both cleanup calls were
    made and did not fail, the working directory is the one before the
    scope, and that directory and all below it are gone. *)
Theorem normal_return_means_clean {A} (block : path -> M A) h w a :
  res (in_temp_dir block h w) = Return a ->
  exists tmp,
    res (entry h w) = Return (cwd w, tmp) /\
    stat tmp (root w) = None /\
    cwd (post (entry h w)) = tmp /\
    is_empty_dir_at tmp (root (post (entry h w))) = true /\
    res (block tmp h (post (entry h w))) = Return a /\
    log (in_temp_dir block h w) =
      log (entry h w) ++ log (block tmp h (post (entry h w))) ++
      [Ev (Chdir (cwd w)) None; Ev (Rmtree tmp) None] /\
    cwd (post (in_temp_dir block h w)) = cwd w /\
    forall q, stat (tmp ++ q) (root (post (in_temp_dir block h w))) = None.
Proof.
  intros Hr.
  destruct (in_temp_dir_returns _ _ _ _ Hr) as (orig & tmp & He & Hb & H1 & H2).
  destruct (entry_facts _ _ _ _ He) as (-> & Hcwd & _ & Hnew).
  exists tmp. split; [exact He|]. split; [|split; [exact Hcwd|]].
  { apply (stat_fresh_below h w (cwd w) tmp tmp He). done. }
  split; [unfold is_empty_dir_at; by rewrite Hnew|].
  split; [exact Hb|]. split; [|split].
  - destruct (in_temp_dir_log block h w (cwd w) tmp He) as (e1 & e2 & Hl & He1 & He2).
    cbv zeta in He1, He2. apply He1 in H1. apply He2 in H2. by subst e1 e2.
  - by eapply in_temp_dir_cwd.
  - intros q. apply stat_none_below. unfold stat.
    by rewrite (in_temp_dir_gone block h w (cwd w) tmp He H2).
Qed.

(** X7. When the block stays in the directory it was given, the restore
    raises and the deletion goes through, the caller gets the error of the
    restore and the process is left in the deleted directory: its working
    directory is a path at which nothing exists. *)
Theorem failed_restore_strands_process {A} (block : path -> M A) h w orig tmp e1 :
  res (entry h w) = Return (orig, tmp) ->
  let ob := block tmp h (post (entry h w)) in
  let o := in_temp_dir block h w in
  cwd (post ob) = tmp ->
  res (restore_step h orig ob) = Raise e1 ->
  res (delete_step h orig tmp ob) = Return tt ->
  res o = Raise e1 /\
  cwd (post o) = tmp /\
  exists_at (cwd (post o)) (root (post o)) = false.
Proof.
  intros He ob o Hstay H1 H2.
  assert (Hcwd : cwd (post o) = tmp).
  { unfold o. rewrite (in_temp_dir_post block h w orig tmp He). fold ob.
    unfold delete_step. cbv zeta. rewrite shutil_rmtree_cwd.
    unfold restore_step in *. by rewrite (os_chdir_fail _ _ _ _ H1). }
  split; [|split; [exact Hcwd|]].
  - unfold o. rewrite (in_temp_dir_res block h w orig tmp He). cbv zeta.
    fold ob. rewrite H2, H1. by destruct (res ob).
  - rewrite Hcwd. unfold exists_at, o.
    by rewrite (in_temp_dir_gone block h w orig tmp He H2).
Qed.

(** X8. Errors of the cleanup after a block that returned: an error of the
    restore alone reaches the caller, in place of the value of the block;
    when the deletion raises too, its error is the one that reaches the
    caller and the error of the restore is its [__context__]. *)
Theorem cleanup_error_precedence {A} (block : path -> M A) h w orig tmp a :
  res (entry h w) = Return (orig, tmp) ->
  let ob := block tmp h (post (entry h w)) in
  let o1 := restore_step h orig ob in
  let o2 := delete_step h orig tmp ob in
  let o := in_temp_dir block h w in
  res ob = Return a ->
  (forall e1, res o1 = Raise e1 -> res o2 = Return tt ->
     res o = Raise e1 /\ exn_context e1 = h) /\
  (forall e1 e2, res o1 = Raise e1 -> res o2 = Raise e2 ->
     res o = Raise e2 /\ exn_context e2 = Some e1).
Proof.
  intros He ob o1 o2 o Hb.
  pose proof (in_temp_dir_res block h w orig tmp He) as Hres.
  cbv zeta in Hres. fold ob o1 o2 o in Hres.
  split.
  - intros e1 H1 H2. rewrite Hres, H2, H1. split; [done|].
    unfold o1, restore_step, os_chdir in H1.
    rewrite (host_call_context _ _ _ _ _ H1), Hb. done.
  - intros e1 e2 H1 H2. rewrite Hres, H2. split; [done|].
    unfold o2, delete_step, shutil_rmtree in H2. cbv zeta in H2.
    rewrite (host_call_context _ _ _ _ _ H2). fold ob o1. by rewrite H1.
Qed.


(** X10. A wrapped function that returns has cleaned up: when the callable
    [within_temp_dir f] returns a value, [f] returned that value with the
    arguments given, in a temporary directory that was the working
    directory, and afterwards the working directory is the one before the
    call and the temporary directory is gone. *)
Theorem wrapped_return_means_clean {V R} (f : callable V R)
    (args : list V) (kwargs : gmap string V) h w v :
  res (fn_call (within_temp_dir f) args kwargs h w) = Return v ->
  exists tmp,
    res (fn_call f args kwargs h (post (entry h w))) = Return v /\
    cwd (post (entry h w)) = tmp /\
    cwd (post (fn_call (within_temp_dir f) args kwargs h w)) = cwd w /\
    exists_at tmp (root (post (fn_call (within_temp_dir f) args kwargs h w))) = false.
Proof.
  unfold within_temp_dir, functools_wraps. cbn [fn_call]. intros Hr.
  destruct (in_temp_dir_returns _ _ _ _ Hr) as (orig & tmp & He & Hb & H1 & H2).
  cbv beta zeta in Hb, H1, H2.
  destruct (entry_facts _ _ _ _ He) as (_ & Hcwd & _).
  exists tmp. repeat split; try done.
  - by eapply (in_temp_dir_cwd (fun _ => fn_call f args kwargs)).
  - unfold exists_at.
    by rewrite (in_temp_dir_gone (fun _ => fn_call f args kwargs) h w orig tmp He H2).
Qed.

(** ** The further properties at work *)

(** X1 on [world_lost]. *)
Lemma getcwd_failure_creates_nothing_witness :
  res (in_temp_dir block_data None world_lost) =
    Raise (Exn "FileNotFoundError" None) /\
  root (post (in_temp_dir block_data None world_lost)) = root world_lost.
Proof.
  destruct (getcwd_failure_creates_nothing block_data None world_lost
              (Exn "FileNotFoundError" None)) as (Hr & Ht & _);
    [vm_compute; reflexivity|].
  split; [exact Hr|exact Ht].
Defined.

(** X2 on [world_no_tempdir]. *)
Lemma mkdtemp_failure_changes_nothing_witness :
  res (in_temp_dir block_data None world_no_tempdir) =
    Raise (Exn "FileNotFoundError" None) /\
  root (post (in_temp_dir block_data None world_no_tempdir)) = root world_no_tempdir /\
  cwd (post (in_temp_dir block_data None world_no_tempdir)) = home.
Proof.
  destruct (mkdtemp_failure_changes_nothing block_data None world_no_tempdir home
              (Exn "FileNotFoundError" None)) as (Hr & Ht & Hc & _);
    [vm_compute; reflexivity..|].
  split; [exact Hr|]. split; [exact Ht|exact Hc].
Defined.

(** X3 on [world_taken]: the name that is taken is passed over, the block
    runs in the directory of the second name, and the directory that has
    the first name keeps its file. *)
Lemma yielded_directory_is_new_witness :
  res (entry None world_taken) = Return (home, ["tmp"; "tmpe5f6g7h8"]) /\
  res (in_temp_dir block_probe None world_taken) =
    Return (["tmp"; "tmpe5f6g7h8"], ["tmp"; "tmpe5f6g7h8"], true) /\
  stat ["tmp"; "tmpe5f6g7h8"] (root world_taken) = None /\
  stat ["tmp"; "tmpa1b2c3d4"; "keep.txt"] (root (post (entry None world_taken))) =
    Some (IsFile "mine").
Proof.
  assert (He : res (entry None world_taken) = Return (home, ["tmp"; "tmpe5f6g7h8"]))
    by (vm_compute; reflexivity).
  destruct (yielded_directory_is_new block_probe None world_taken _ _ He)
    as (Hrun & Hold & Hframe).
  split; [exact He|]. split; [rewrite Hrun; vm_compute; reflexivity|].
  split; [exact (Hold [])|].
  rewrite Hframe; [vm_compute; reflexivity|].
  intros [k Hk]. discriminate.
Defined.

(** X4 on [world0], for a block whose file the deletion cannot remove: the
    file in the home directory is as it was. *)
Lemma exit_removes_only_tempdir_witness :
  res (entry None world0) = Return (home, tmp0) /\
  res (in_temp_dir block_locked None world0) =
    Raise (Exn "PermissionError" (Some (Exn "ValueError" None))) /\
  stat (home ++ ["notes.txt"]) (root (post (in_temp_dir block_locked None world0))) =
    Some (IsFile "hello").
Proof.
  assert (He : res (entry None world0) = Return (home, tmp0))
    by (vm_compute; reflexivity).
  split; [exact He|]. split; [vm_compute; reflexivity|].
  rewrite (exit_removes_only_tempdir block_locked None world0 home tmp0
             (home ++ ["notes.txt"]) He); [vm_compute; reflexivity|].
  intros [k Hk]. discriminate.
Defined.

(** X5 on [world0], for the block that writes [data.txt]. *)
Lemma scope_round_trip_witness :
  res (entry None world0) = Return (home, tmp0) /\
  forall q, stat q (root (post (in_temp_dir block_data None world0))) =
            stat q (root world0).
Proof.
  assert (He : res (entry None world0) = Return (home, tmp0))
    by (vm_compute; reflexivity).
  split; [exact He|].
  destruct (scope_round_trip block_data None world0 home tmp0 He) as [_ Hback].
  - intros q Hq. unfold block_data. apply write_file_outside.
    intros Hp. apply Hq. by eapply prefix_app_l.
  - apply Hback. vm_compute; reflexivity.
Defined.

(** X6 on [world0], for the block that writes [data.txt]. *)
Lemma normal_return_means_clean_witness :
  res (in_temp_dir block_data None world0) = Return tt /\
  res (entry None world0) = Return (home, tmp0) /\
  cwd (post (in_temp_dir block_data None world0)) = cwd world0 /\
  stat tmp0 (root (post (in_temp_dir block_data None world0))) = None /\
  stat (tmp0 ++ ["data.txt"]) (root (post (in_temp_dir block_data None world0))) = None.
Proof.
  assert (Hr : res (in_temp_dir block_data None world0) = Return tt)
    by (vm_compute; reflexivity).
  assert (He : res (entry None world0) = Return (home, tmp0))
    by (vm_compute; reflexivity).
  split; [exact Hr|]. split; [exact He|].
  destruct (normal_return_means_clean block_data None world0 tt Hr)
    as (tmp & He' & _ & _ & _ & _ & _ & Hcwd & Hgone).
  rewrite He in He'. injection He' as <-.
  split; [exact Hcwd|]. split; [exact (Hgone [])|exact (Hgone ["data.txt"])].
Defined.

(** X7 on [world0], for a block that removes the home directory. *)
Lemma failed_restore_strands_process_witness :
  res (in_temp_dir block_burn_home_stay None world0) =
    Raise (Exn "FileNotFoundError" None) /\
  cwd (post (in_temp_dir block_burn_home_stay None world0)) = tmp0 /\
  exists_at (cwd (post (in_temp_dir block_burn_home_stay None world0)))
    (root (post (in_temp_dir block_burn_home_stay None world0))) = false.
Proof.
  apply (failed_restore_strands_process block_burn_home_stay None world0 home tmp0);
    vm_compute; reflexivity.
Defined.

(** X8 on [world_exit_faults]: the host rejects both cleanup steps. *)
Lemma cleanup_error_precedence_witness :
  res (in_temp_dir block_probe None world_exit_faults) =
    Raise (Exn "OSError" (Some (Exn "OSError" None))) /\
  res (in_temp_dir block_burn_home None world0) =
    Raise (Exn "FileNotFoundError" None).
Proof.
  split.
  - destruct (cleanup_error_precedence block_probe None world_exit_faults
                home tmp0 (tmp0, tmp0, true)) as [_ H];
      [vm_compute; reflexivity..|].
    destruct (H (Exn "OSError" None) (Exn "OSError" (Some (Exn "OSError" None))))
      as [Hr _]; [vm_compute; reflexivity..|].
    exact Hr.
  - destruct (cleanup_error_precedence block_burn_home None world0 home tmp0 tt)
      as [H _]; [vm_compute; reflexivity..|].
    destruct (H (Exn "FileNotFoundError" None)) as [Hr _];
      [vm_compute; reflexivity..|].
    exact Hr.
Defined.


(** X10 on [world0], for [f(x, y=2)] called with [(3, y=4)]. *)
Lemma wrapped_return_means_clean_witness :
  res (fn_call (within_temp_dir add_xy) [3%Z] {["y" := 4%Z]} None world0) =
    Return 7%Z /\
  cwd (post (fn_call (within_temp_dir add_xy) [3%Z] {["y" := 4%Z]} None world0)) =
    cwd world0.
Proof.
  assert (Hr : res (fn_call (within_temp_dir add_xy) [3%Z] {["y" := 4%Z]} None world0)
               = Return 7%Z) by (vm_compute; reflexivity).
  split; [exact Hr|].
  destruct (wrapped_return_means_clean add_xy [3%Z] {["y" := 4%Z]} None world0 7%Z Hr)
    as (tmp & _ & _ & Hcwd & _).
  exact Hcwd.
Defined.
